(** * voice-webapp: the voice activity detector, the playback queue and the
  resource-cleanup registry

  A shallow embedding of the three stateful classes of the repository:

  - [AdvancedVAD]        (src/src/App.tsx, lines 57-171; the older copy in
                          src/odia-voiceai.tsx, lines 25-124),
  - [AudioBufferManager] (src/src/App.tsx, lines 174-235),
  - [ResourceCleanup]    (utils/resourceCleanup.ts, lines 5-170),

  JavaScript numbers are IEEE 754 binary64 values; they are modelled by
  Rocq's primitive floats, which implement the same format with the same
  rounding, so [0 / 0] is [nan] and [x / 0] is an infinity, as in the
  browser.  Objects are modelled by records, mutation by explicit state
  passing, callbacks by an event log. *)

From Stdlib Require Import List Arith ZArith Lia Bool.
From Stdlib Require Import Floats.
From Stdlib Require String.
Import ListNotations.

(* 0.015 and 0.3 are not binary64 values; the literal denotes the nearest
 one, in Rocq as in JavaScript. *)
Set Warnings "-inexact-float".

(** ** JavaScript numbers and arrays *)

Module JS.

Open Scope float_scope.

(** An array length or a counter used as a number. *)
Definition of_nat (n : nat) : float :=
  PrimFloat.of_uint63 (Uint63.of_Z (Z.of_nat n)).

(** [a > b] on numbers: false as soon as one side is NaN. *)
Definition gt (a b : float) : bool := b <? a.

(** [Math.min(a, b)]: NaN if either argument is NaN, and -0 below +0. *)
Definition Math_min (a b : float) : float :=
  if is_nan a || is_nan b then nan
  else if a <? b then a
  else if b <? a then b
  else if get_sign a then a else b.

(** [arr.reduce((a, b) => a + b, 0)] *)
Definition reduce_add (arr : list float) : float :=
  fold_left (fun a b => a + b) arr 0.

(** [arr.push(x)] *)
Definition push {A} (arr : list A) (x : A) : list A := arr ++ [x].

(** [arr.shift()], the array that is left. *)
Definition shift {A} (arr : list A) : list A := tl arr.

(** [for (let i = from; i < from + steps; i++) acc = body i acc] *)
Fixpoint for_loop {A} (steps from : nat) (body : nat -> A -> A) (acc : A) : A :=
  match steps with
  | O => acc
  | S k => for_loop k (S from) body (body from acc)
  end.

End JS.

(** ** AdvancedVAD *)

Module VAD.

Import JS.
Open Scope float_scope.

(** The four callbacks handed to the constructor; a call is an entry of
    the event log. *)
Inductive Event : Type :=
| OnSpeechStart
| OnSpeechEnd
| OnVolumeChange (volume : float)
| OnConfidence (confidence : float).

Record t : Type := mk {
  isSpeaking : bool;
  speechFrames : nat;
  silenceFrames : nat;
  energyThreshold : float;
  zcrThreshold : float;
  speechConfidence : float;
  backgroundNoise : float;
  calibrationSamples : list float;
  isCalibrated : bool;
  energyHistory : list float;
  zcrHistory : list float
}.

Definition historySize : nat := 5.
Definition calibrationTarget : nat := 30.
Definition speechStartThreshold : nat := 2.
Definition speechEndThreshold : nat := 8.

(** Field initialisers of the class (App.tsx, lines 62-72). *)
Definition init : t :=
  {| isSpeaking := false;
     speechFrames := 0;
     silenceFrames := 0;
     energyThreshold := 0.015;
     zcrThreshold := 0.3;
     speechConfidence := 0;
     backgroundNoise := 0;
     calibrationSamples := [];
     isCalibrated := false;
     energyHistory := [];
     zcrHistory := [] |}.

(** [calibrate(volume)] (App.tsx, lines 90-103). *)
Definition calibrate (s : t) (volume : float) : t * bool :=
  if (length (calibrationSamples s) <? calibrationTarget)%nat then
    ({| isSpeaking := isSpeaking s;
        speechFrames := speechFrames s;
        silenceFrames := silenceFrames s;
        energyThreshold := energyThreshold s;
        zcrThreshold := zcrThreshold s;
        speechConfidence := speechConfidence s;
        backgroundNoise := backgroundNoise s;
        calibrationSamples := push (calibrationSamples s) volume;
        isCalibrated := isCalibrated s;
        energyHistory := energyHistory s;
        zcrHistory := zcrHistory s |}, false)
  else if negb (isCalibrated s) then
    let sum := reduce_add (calibrationSamples s) in
    let backgroundNoise' := sum / of_nat (length (calibrationSamples s)) in
    ({| isSpeaking := isSpeaking s;
        speechFrames := speechFrames s;
        silenceFrames := silenceFrames s;
        energyThreshold := backgroundNoise' * 3;
        zcrThreshold := zcrThreshold s;
        speechConfidence := speechConfidence s;
        backgroundNoise := backgroundNoise';
        calibrationSamples := calibrationSamples s;
        isCalibrated := true;
        energyHistory := energyHistory s;
        zcrHistory := zcrHistory s |}, true)
  else (s, true).

(** The loop of [calculateZCR]: [i] runs from 1 to [samples.length - 1] and
    the counter goes up when [samples[i] * samples[i - 1] < 0]. *)
Definition zcr_loop (samples : list float) : nat :=
  for_loop (length samples - 1) 1
    (fun i zcr =>
       if nth i samples nan * nth (i - 1) samples nan <? 0 then S zcr else zcr)
    0%nat.

(** [calculateZCR(samples)] (App.tsx, lines 105-112). *)
Definition calculateZCR (samples : list float) : float :=
  if (length samples =? 0)%nat then 0.5
  else of_nat (zcr_loop samples) / of_nat (length samples).

(** [calculateZCR(samples)] of the older copy (odia-voiceai.tsx, lines
    60-66), which has no test for the empty array. *)
Definition calculateZCR_odia (samples : list float) : float :=
  of_nat (zcr_loop samples) / of_nat (length samples).

(** The locals of [process] up to the confidence (App.tsx, lines 120-139). *)
Record Locals : Type := mkLocals {
  energy : float;
  zcr : float;
  energyHistory' : list float;
  zcrHistory' : list float;
  avgEnergy : float;
  avgZCR : float;
  energySpeech : bool;
  zcrSpeech : bool;
  energyConf : float;
  zcrConf : float
}.

Definition locals (s : t) (volume : float) (samples : list float) : Locals :=
  let energy := volume in
  let zcr := if (0 <? length samples)%nat then calculateZCR samples else 0.5 in
  let eh := push (energyHistory s) energy in
  let zh := push (zcrHistory s) zcr in
  let over := (historySize <? length eh)%nat in
  let eh := if over then shift eh else eh in
  let zh := if over then shift zh else zh in
  let avgEnergy := reduce_add eh / of_nat (length eh) in
  let avgZCR := reduce_add zh / of_nat (length zh) in
  {| energy := energy;
     zcr := zcr;
     energyHistory' := eh;
     zcrHistory' := zh;
     avgEnergy := avgEnergy;
     avgZCR := avgZCR;
     energySpeech := gt avgEnergy (energyThreshold s);
     zcrSpeech := gt avgZCR (zcrThreshold s);
     energyConf := Math_min (avgEnergy / (energyThreshold s * 3)) 1;
     zcrConf := Math_min (avgZCR / zcrThreshold s) 1 |}.

(** [process(volume, samples)] (App.tsx, lines 114-161): the new state and
    the callbacks it made, in order. *)
Definition process (s : t) (volume : float) (samples : list float)
  : t * list Event :=
  if negb (isCalibrated s) then (fst (calibrate s volume), [])
  else
    let l := locals s volume samples in
    let speechConfidence' := (energyConf l + zcrConf l) / 2 in
    let telemetry := [OnVolumeChange volume; OnConfidence speechConfidence'] in
    if energySpeech l && zcrSpeech l then
      let speechFrames' := S (speechFrames s) in
      let start :=
        negb (isSpeaking s) && (speechStartThreshold <? speechFrames')%nat in
      ({| isSpeaking := if start then true else isSpeaking s;
          speechFrames := speechFrames';
          silenceFrames := 0;
          energyThreshold := energyThreshold s;
          zcrThreshold := zcrThreshold s;
          speechConfidence := speechConfidence';
          backgroundNoise := backgroundNoise s;
          calibrationSamples := calibrationSamples s;
          isCalibrated := isCalibrated s;
          energyHistory := energyHistory' l;
          zcrHistory := zcrHistory' l |},
       telemetry ++ (if start then [OnSpeechStart] else []))
    else
      let silenceFrames' := S (silenceFrames s) in
      let stop :=
        isSpeaking s && (speechEndThreshold <? silenceFrames')%nat in
      ({| isSpeaking := if stop then false else isSpeaking s;
          speechFrames := 0;
          silenceFrames := silenceFrames';
          energyThreshold := energyThreshold s;
          zcrThreshold := zcrThreshold s;
          speechConfidence := speechConfidence';
          backgroundNoise := backgroundNoise s;
          calibrationSamples := calibrationSamples s;
          isCalibrated := isCalibrated s;
          energyHistory := energyHistory' l;
          zcrHistory := zcrHistory' l |},
       telemetry ++ (if stop then [OnSpeechEnd] else [])).

(** [reset()] (App.tsx, lines 163-170). *)
Definition reset (s : t) : t :=
  {| isSpeaking := false;
     speechFrames := 0;
     silenceFrames := 0;
     energyThreshold := energyThreshold s;
     zcrThreshold := zcrThreshold s;
     speechConfidence := 0;
     backgroundNoise := backgroundNoise s;
     calibrationSamples := calibrationSamples s;
     isCalibrated := isCalibrated s;
     energyHistory := [];
     zcrHistory := [] |}.

(** *** Sessions: sequences of calls on one detector *)

(** One analysis tick: the arguments of a [process] call. *)
Record Frame : Type := mkFrame {
  volume : float;
  samples : list float
}.

Definition processFrame (s : t) (f : Frame) : t * list Event :=
  process s (volume f) (samples f).

(** The frames are processed in order; the result keeps the callbacks of
    each frame apart. *)
Fixpoint run (s : t) (frames : list Frame) : t * list (list Event) :=
  match frames with
  | [] => (s, [])
  | f :: rest =>
      let (s1, evs) := processFrame s f in
      let (s2, evss) := run s1 rest in
      (s2, evs :: evss)
  end.

(** The classification of line 144 for a frame arriving in state [s]. *)
Definition speechLike (s : t) (f : Frame) : bool :=
  let l := locals s (volume f) (samples f) in
  energySpeech l && zcrSpeech l.

(** Every frame of the run is classified [want] at the time it is
    processed. *)
Fixpoint allClassified (want : bool) (s : t) (frames : list Frame) : bool :=
  match frames with
  | [] => true
  | f :: rest =>
      Bool.eqb (speechLike s f) want
      && allClassified want (fst (processFrame s f)) rest
  end.

Definition isStart (e : Event) : bool :=
  match e with OnSpeechStart => true | _ => false end.

Definition isEnd (e : Event) : bool :=
  match e with OnSpeechEnd => true | _ => false end.

(** Number of [onSpeechStart] (resp. [onSpeechEnd]) calls of one frame. *)
Definition speechStarts (evs : list Event) : nat := length (filter isStart evs).
Definition speechEnds (evs : list Event) : nat := length (filter isEnd evs).

(** The public methods, as calls of a session. *)
Inductive Call : Type :=
| Process (volume : float) (samples : list float)
| Calibrate (volume : float)
| Reset.

Definition exec (s : t) (c : Call) : t :=
  match c with
  | Process v smp => fst (process s v smp)
  | Calibrate v => fst (calibrate s v)
  | Reset => reset s
  end.

Definition session (s : t) (cs : list Call) : t := fold_left exec cs s.

(** The energy values of a session, in the order they were submitted. *)
Definition submitted (cs : list Call) : list float :=
  flat_map (fun c => match c with
                     | Process v _ => [v]
                     | Calibrate v => [v]
                     | Reset => []
                     end) cs.

(** Successive [calibrate] calls and what each returned. *)
Fixpoint calibrateAll (s : t) (vs : list float) : t * list bool :=
  match vs with
  | [] => (s, [])
  | v :: rest =>
      let (s1, r) := calibrate s v in
      let (s2, rs) := calibrateAll s1 rest in
      (s2, r :: rs)
  end.

(** The arithmetic mean as the code computes it: a left-to-right sum from
    0, divided by the length. *)
Definition mean (vs : list float) : float :=
  reduce_add vs / of_nat (length vs).

(** The zero-crossing count read off the specification: the number of
    adjacent pairs whose product is strictly negative. *)
Fixpoint signChanges (samples : list float) : nat :=
  match samples with
  | [] => 0%nat
  | previous :: rest =>
      match rest with
      | [] => 0%nat
      | current :: _ =>
          let crossing := current * previous <? 0 in
          ((if crossing then 1 else 0) + signChanges rest)%nat
      end
  end.

(** How often [onSpeechStart] fires per frame along a run of [n]
    speech-like frames entered with the given flag and counter. *)
Fixpoint startPattern (speaking : bool) (frames : nat) (n : nat) : list nat :=
  match n with
  | O => []
  | S n' =>
      let fire := negb speaking && (speechStartThreshold <? S frames)%nat in
      (if fire then 1 else 0)%nat
        :: startPattern (if fire then true else speaking) (S frames) n'
  end.

(** How often [onSpeechEnd] fires per frame along a run of [n] frames that
    are not speech-like. *)
Fixpoint endPattern (speaking : bool) (frames : nat) (n : nat) : list nat :=
  match n with
  | O => []
  | S n' =>
      let fire := speaking && (speechEndThreshold <? S frames)%nat in
      (if fire then 1 else 0)%nat
        :: endPattern (if fire then false else speaking) (S frames) n'
  end.

(** What the calibration fields hold once the energy values [vs] have
    been submitted to a fresh detector. *)
Definition Calibration (s : t) (vs : list float) : Prop :=
  calibrationSamples s = firstn calibrationTarget vs
  /\ isCalibrated s = (calibrationTarget <? length vs)%nat
  /\ (isCalibrated s = true ->
      backgroundNoise s = mean (calibrationSamples s)
      /\ energyThreshold s = backgroundNoise s * 3)
  /\ (isCalibrated s = false ->
      backgroundNoise s = backgroundNoise init
      /\ energyThreshold s = energyThreshold init).

(** The fields of the state machine and of the smoothing window, which the
    calibration phase leaves alone. *)
Definition sameDetection (s s' : t) : Prop :=
  isSpeaking s' = isSpeaking s
  /\ speechFrames s' = speechFrames s
  /\ silenceFrames s' = silenceFrames s
  /\ speechConfidence s' = speechConfidence s
  /\ energyHistory s' = energyHistory s
  /\ zcrHistory s' = zcrHistory s.

(** Concrete inputs used below. *)
Definition quietFrame : Frame := mkFrame 0.01 [].
Definition loudFrame : Frame := mkFrame 0.5 [1; -1; 1; -1].
Definition zeroFrame : Frame := mkFrame 0 [].

(** A detector calibrated on 30 quiet frames (and the frame after them). *)
Definition calibrated : t := fst (run init (repeat quietFrame 31)).

(** The same detector after five loud frames, which start speech, and
    four quiet ones, which the smoothing window still classifies as
    speech: speech is active and the next quiet frame is the first that
    does not qualify. *)
Definition speaking : t :=
  fst (run calibrated (repeat loudFrame 5 ++ repeat quietFrame 4)).

(** A session of 31 quiet frames, and calls made after it. *)
Definition quietSession : list Call := repeat (Process 0.01 []) 31.
Definition laterCalls : list Call :=
  [Process 0.5 [1; -1; 1; -1]; Reset; Calibrate 0.7; Process 0.2 []].

(** A detector calibrated in complete silence. *)
Definition zeroCalibrated : t := fst (run init (repeat zeroFrame 31)).

End VAD.

(** ** AudioBufferManager *)

Module Playback.

(** A blob and an [HTMLAudioElement] are known by their identity; the
    [k]-th element created by [new Audio(audioUrl)] is number [k]. *)
Definition Blob : Type := nat.
Definition Audio : Type := nat.

(** The fields of the class (App.tsx, lines 175-178); [audioContext] is
    never read or written. *)
Record AudioBufferManager : Type := mkManager {
  queue : list Blob;
  isPlaying : bool;
  currentAudio : option Audio
}.

(** What the browser holds: the blob of every element on which [play()]
    was called, in call order, and the elements that are playing now. *)
Record Host : Type := mkHost {
  started : list Blob;
  sounding : list Audio
}.

Record State : Type := mkState {
  mgr : AudioBufferManager;
  host : Host
}.

Definition init : State :=
  {| mgr := {| queue := []; isPlaying := false; currentAudio := None |};
     host := {| started := []; sounding := [] |} |}.

Definition silence (a : Audio) (playing : list Audio) : list Audio :=
  filter (fun b => negb (b =? a)) playing.

(** [playNext()] (lines 187-221), up to the point where it has installed
    the handlers and called [play()]; the handlers run later, see
    [signal]. *)
Definition playNext (st : State) : State :=
  match queue (mgr st) with
  | [] =>
      {| mgr := {| queue := [];
                   isPlaying := false;
                   currentAudio := currentAudio (mgr st) |};
         host := host st |}
  | audioBlob :: rest =>
      let audio := length (started (host st)) in
      {| mgr := {| queue := rest;
                   isPlaying := true;
                   currentAudio := Some audio |};
         host := {| started := started (host st) ++ [audioBlob];
                    sounding := sounding (host st) ++ [audio] |} |}
  end.

(** [add(audioBlob)] (lines 180-185). *)
Definition add (audioBlob : Blob) (st : State) : State :=
  let st1 :=
    {| mgr := {| queue := queue (mgr st) ++ [audioBlob];
                 isPlaying := isPlaying (mgr st);
                 currentAudio := currentAudio (mgr st) |};
       host := host st |} in
  if negb (isPlaying (mgr st1)) then playNext st1 else st1.

(** [stop()] (lines 223-230); [pause()] silences the element. *)
Definition stop (st : State) : State :=
  let playing :=
    match currentAudio (mgr st) with
    | Some audio => silence audio (sounding (host st))
    | None => sounding (host st)
    end in
  {| mgr := {| queue := []; isPlaying := false; currentAudio := None |};
     host := {| started := started (host st); sounding := playing |} |}.

(** [clear()] (lines 232-234). *)
Definition clear (st : State) : State := stop st.

(** The three completion paths installed by [playNext] on an element:
    [onended], [onerror] and the rejection of [play()]. *)
Inductive Completion : Type := Ended | Errored | PlayRejected.

(** A completion of element [audio] is delivered: the element is silent
    from then on and its handler calls [this.playNext()].  The handlers do
    not look at which element they belong to. *)
Definition signal (c : Completion) (audio : Audio) (st : State) : State :=
  playNext
    {| mgr := mgr st;
       host := {| started := started (host st);
                  sounding := silence audio (sounding (host st)) |} |}.

Inductive Op : Type :=
| Add (audioBlob : Blob)
| Stop
| Clear
| Signal (c : Completion) (audio : Audio).

Definition step (st : State) (op : Op) : State :=
  match op with
  | Add b => add b st
  | Stop => stop st
  | Clear => clear st
  | Signal c a => signal c a st
  end.

Definition run (st : State) (ops : list Op) : State := fold_left step ops st.

(** The blobs handed to [add], in call order. *)
Definition enqueued (ops : list Op) : list Blob :=
  flat_map (fun op => match op with Add b => [b] | _ => [] end) ops.

(** [audio] is the element the manager is playing. *)
Definition isCurrent (audio : Audio) (st : State) : bool :=
  match currentAudio (mgr st) with
  | Some a => (a =? audio) && existsb (Nat.eqb audio) (sounding (host st))
  | None => false
  end.

(** Sequences of [add] calls and of completions of the item playing at
    the time: no [stop], no completion of another element. *)
Fixpoint regular (st : State) (ops : list Op) : bool :=
  match ops with
  | [] => true
  | op :: rest =>
      match op with
      | Add _ => true
      | Signal _ a => isCurrent a st
      | Stop | Clear => false
      end && regular (step st op) rest
  end.

Definition isAdd (op : Op) : bool :=
  match op with Add _ => true | _ => false end.

(** The invariant of regular runs. *)
Definition consistent (st : State) : Prop :=
  if isPlaying (mgr st) then
    exists audio,
      currentAudio (mgr st) = Some audio
      /\ sounding (host st) = [audio]
      /\ S audio = length (started (host st))
  else
    queue (mgr st) = [] /\ sounding (host st) = [].

End Playback.

(** ** ResourceCleanup *)

(** A JavaScript [Set] of object identities: no duplicates, iteration in
  insertion order. *)
Module JSSet.

Definition t : Type := list nat.

Definition has (x : nat) (s : t) : bool := existsb (Nat.eqb x) s.

Definition add (x : nat) (s : t) : t := if has x s then s else s ++ [x].

Definition delete (x : nat) (s : t) : t := filter (fun y => negb (y =? x)) s.

Definition clear (s : t) : t := [].

Definition size (s : t) : Z := Z.of_nat (length s).

End JSSet.

Module Registry.

Definition AudioContext : Type := nat.
Definition MediaStream : Type := nat.
Definition MediaStreamTrack : Type := nat.
Definition AudioNode : Type := nat.

(** [AudioContext.state] *)
Inductive AudioContextState : Type := suspended | running | closed.

Definition isClosed (st : AudioContextState) : bool :=
  match st with closed => true | _ => false end.

(** The browser calls through which a resource is released. *)
Inductive HostCall : Type :=
| CancelAnimationFrame (id : nat)
| Disconnect (node : AudioNode)
| TrackStop (track : MediaStreamTrack)
| SpeechSynthesisCancel
| ContextClose (context : AudioContext).

(** The browser: the tracks of each stream, which calls throw, whether
    [window.speechSynthesis] exists, the state of each audio context, and
    the calls made so far, in order. *)
Record Host : Type := mkHost {
  getTracks : MediaStream -> list MediaStreamTrack;
  throws : HostCall -> bool;
  speechSynthesis : bool;
  state : AudioContext -> AudioContextState;
  calls : list HostCall
}.

(** The four static sets of the class (lines 6-9). *)
Record ResourceCleanup : Type := mkRegistry {
  activeAudioContexts : JSSet.t;
  activeMediaStreams : JSSet.t;
  activeAnimationFrames : JSSet.t;
  activeAudioNodes : JSSet.t
}.

Record World : Type := mkWorld {
  registry : ResourceCleanup;
  host : Host
}.

(** *** Statements that may throw *)

Inductive Outcome (A : Type) : Type :=
| Normal (a : A)
| Thrown.
Arguments Normal {A} a.
Arguments Thrown {A}.

Definition M (A : Type) : Type := World -> Outcome A * World.

Definition ret {A} (a : A) : M A := fun w => (Normal a, w).

Definition bind {A B} (m : M A) (k : A -> M B) : M B :=
  fun w =>
    match m w with
    | (Normal a, w1) => k a w1
    | (Thrown, w1) => (Thrown, w1)
    end.

(** [try { body } catch (error) { handler }] *)
Definition try_catch (body handler : M unit) : M unit :=
  fun w =>
    match body w with
    | (Normal a, w1) => (Normal a, w1)
    | (Thrown, w1) => handler w1
    end.

Declare Scope js_scope.
Delimit Scope js_scope with js.
Notation "x <- c1 ;; c2" := (bind c1 (fun x => c2))
  (at level 61, c1 at next level, right associativity) : js_scope.
Notation "c1 ;; c2" := (bind c1 (fun _ => c2))
  (at level 61, right associativity) : js_scope.
Open Scope js_scope.

(** [items.forEach(item => body item)] on a snapshot of the items. *)
Fixpoint forEach {A} (items : list A) (body : A -> M unit) : M unit :=
  match items with
  | [] => ret tt
  | item :: rest => body item ;; forEach rest body
  end.

Definition get {A} (f : World -> A) : M A := fun w => (Normal (f w), w).

Definition updateRegistry (f : ResourceCleanup -> ResourceCleanup) : M unit :=
  fun w => (Normal tt, {| registry := f (registry w); host := host w |}).

(** What a call that returns does to the browser: [close()] leaves the
    context closed. *)
Definition effect (c : HostCall) (st : AudioContext -> AudioContextState)
  : AudioContext -> AudioContextState :=
  match c with
  | ContextClose context => fun x => if x =? context then closed else st x
  | _ => st
  end.

(** The browser after the calls [made], with the context states [st]. *)
Definition withCalls (made : list HostCall)
  (st : AudioContext -> AudioContextState) (h : Host) : Host :=
  {| getTracks := getTracks h;
     throws := throws h;
     speechSynthesis := speechSynthesis h;
     state := st;
     calls := calls h ++ made |}.

(** A call into the browser: it is recorded, then it throws or returns. *)
Definition invoke (c : HostCall) : M unit :=
  fun w =>
    let h := host w in
    if throws h c then
      (Thrown,
       {| registry := registry w; host := withCalls [c] (state h) h |})
    else
      (Normal tt,
       {| registry := registry w;
          host := withCalls [c] (effect c (state h)) h |}).

(** [voiceDebugger.logInfo] and [voiceDebugger.logError] print to the
    console and keep a log of their own; they touch neither the registry
    nor the resources. *)
Definition logInfo : M unit := ret tt.
Definition logError : M unit := ret tt.

(** *** The methods *)

Definition withContexts f (r : ResourceCleanup) : ResourceCleanup :=
  {| activeAudioContexts := f (activeAudioContexts r);
     activeMediaStreams := activeMediaStreams r;
     activeAnimationFrames := activeAnimationFrames r;
     activeAudioNodes := activeAudioNodes r |}.

Definition withStreams f (r : ResourceCleanup) : ResourceCleanup :=
  {| activeAudioContexts := activeAudioContexts r;
     activeMediaStreams := f (activeMediaStreams r);
     activeAnimationFrames := activeAnimationFrames r;
     activeAudioNodes := activeAudioNodes r |}.

Definition withFrames f (r : ResourceCleanup) : ResourceCleanup :=
  {| activeAudioContexts := activeAudioContexts r;
     activeMediaStreams := activeMediaStreams r;
     activeAnimationFrames := f (activeAnimationFrames r);
     activeAudioNodes := activeAudioNodes r |}.

Definition withNodes f (r : ResourceCleanup) : ResourceCleanup :=
  {| activeAudioContexts := activeAudioContexts r;
     activeMediaStreams := activeMediaStreams r;
     activeAnimationFrames := activeAnimationFrames r;
     activeAudioNodes := f (activeAudioNodes r) |}.

(** Lines 12-33. *)
Definition trackAudioContext (context : AudioContext) : M unit :=
  updateRegistry (withContexts (JSSet.add context)) ;; logInfo.

Definition trackMediaStream (stream : MediaStream) : M unit :=
  updateRegistry (withStreams (JSSet.add stream)) ;; logInfo.

Definition trackAnimationFrame (id : nat) : M unit :=
  updateRegistry (withFrames (JSSet.add id)) ;; logInfo.

Definition trackAudioNode (node : AudioNode) : M unit :=
  updateRegistry (withNodes (JSSet.add node)) ;; logInfo.

(** [cleanupAudioContext(context)] (lines 36-48).  The method is [async];
    what follows [await context.close()] is run right after the call. *)
Definition cleanupAudioContext (context : option AudioContext) : M unit :=
  match context with
  | None => ret tt
  | Some context =>
      try_catch
        (st <- get (fun w => state (host w) context) ;;
         if negb (isClosed st) then
           invoke (ContextClose context) ;;
           updateRegistry (withContexts (JSSet.delete context)) ;;
           logInfo
         else ret tt)
        logError
  end.

(** [cleanupMediaStream(stream)] (lines 51-66). *)
Definition cleanupMediaStream (stream : option MediaStream) : M unit :=
  match stream with
  | None => ret tt
  | Some stream =>
      try_catch
        (tracks <- get (fun w => getTracks (host w) stream) ;;
         forEach tracks (fun track => invoke (TrackStop track) ;; logInfo) ;;
         updateRegistry (withStreams (JSSet.delete stream)) ;;
         logInfo)
        logError
  end.

(** [cleanupAnimationFrame(id)] (lines 69-79). *)
Definition cleanupAnimationFrame (id : option nat) : M unit :=
  match id with
  | None => ret tt
  | Some id =>
      try_catch
        (invoke (CancelAnimationFrame id) ;;
         updateRegistry (withFrames (JSSet.delete id)) ;;
         logInfo)
        logError
  end.

(** [cleanupAudioNodes()] (lines 82-94). *)
Definition cleanupAudioNodes : M unit :=
  nodes <- get (fun w => activeAudioNodes (registry w)) ;;
  forEach nodes (fun node =>
    try_catch (invoke (Disconnect node) ;; logInfo) logError) ;;
  updateRegistry (withNodes JSSet.clear).

(** [cleanupSpeechSynthesis()] (lines 97-106). *)
Definition cleanupSpeechSynthesis : M unit :=
  try_catch
    (present <- get (fun w => speechSynthesis (host w)) ;;
     if present then invoke SpeechSynthesisCancel ;; logInfo else ret tt)
    logError.

(** [cleanupAll()] (lines 109-132). *)
Definition cleanupAll : M unit :=
  logInfo ;;
  frames <- get (fun w => activeAnimationFrames (registry w)) ;;
  forEach frames (fun id => cleanupAnimationFrame (Some id)) ;;
  cleanupAudioNodes ;;
  streams <- get (fun w => activeMediaStreams (registry w)) ;;
  forEach streams (fun stream => cleanupMediaStream (Some stream)) ;;
  cleanupSpeechSynthesis ;;
  contexts <- get (fun w => activeAudioContexts (registry w)) ;;
  forEach contexts (fun context => cleanupAudioContext (Some context)) ;;
  logInfo.

Record ResourceStats : Type := mkStats {
  audioContexts : Z;
  mediaStreams : Z;
  animationFrames : Z;
  audioNodes : Z
}.

(** [getResourceStats()] (lines 135-147). *)
Definition getResourceStats (r : ResourceCleanup) : ResourceStats :=
  {| audioContexts := JSSet.size (activeAudioContexts r);
     mediaStreams := JSSet.size (activeMediaStreams r);
     animationFrames := JSSet.size (activeAnimationFrames r);
     audioNodes := JSSet.size (activeAudioNodes r) |}.

(** [checkForLeaks()] (lines 150-160). *)
Definition checkForLeaks (r : ResourceCleanup) : bool :=
  let stats := getResourceStats r in
  ((0 <? audioContexts stats) || (0 <? mediaStreams stats)
   || (0 <? animationFrames stats) || (0 <? audioNodes stats))%Z.

(** [reset()] (lines 163-169). *)
Definition reset : M unit :=
  updateRegistry (fun r =>
    {| activeAudioContexts := JSSet.clear (activeAudioContexts r);
       activeMediaStreams := JSSet.clear (activeMediaStreams r);
       activeAnimationFrames := JSSet.clear (activeAnimationFrames r);
       activeAudioNodes := JSSet.clear (activeAudioNodes r) |}) ;;
  logInfo.

(** *** Resources by kind *)

(** The resources that have a release method of their own. *)
Inductive Resource : Type :=
| OfAudioContext (context : AudioContext)
| OfMediaStream (stream : MediaStream)
| OfAnimationFrame (id : nat).

Definition track (x : Resource) : M unit :=
  match x with
  | OfAudioContext context => trackAudioContext context
  | OfMediaStream stream => trackMediaStream stream
  | OfAnimationFrame id => trackAnimationFrame id
  end.

Definition release (x : Resource) : M unit :=
  match x with
  | OfAudioContext context => cleanupAudioContext (Some context)
  | OfMediaStream stream => cleanupMediaStream (Some stream)
  | OfAnimationFrame id => cleanupAnimationFrame (Some id)
  end.

Definition tracked (x : Resource) (r : ResourceCleanup) : bool :=
  match x with
  | OfAudioContext context => JSSet.has context (activeAudioContexts r)
  | OfMediaStream stream => JSSet.has stream (activeMediaStreams r)
  | OfAnimationFrame id => JSSet.has id (activeAnimationFrames r)
  end.

(** The count that [getResourceStats] reports for the kind of [x]. *)
Definition countOf (x : Resource) (stats : ResourceStats) : Z :=
  match x with
  | OfAudioContext _ => audioContexts stats
  | OfMediaStream _ => mediaStreams stats
  | OfAnimationFrame _ => animationFrames stats
  end.

(** The registry once [x] has been deleted from the set of its kind. *)
Definition removed (x : Resource) (r : ResourceCleanup) : ResourceCleanup :=
  match x with
  | OfAudioContext context => withContexts (JSSet.delete context) r
  | OfMediaStream stream => withStreams (JSSet.delete stream) r
  | OfAnimationFrame id => withFrames (JSSet.delete id) r
  end.

(** Whether the release of [x] gets as far as the [delete]: no browser
    call on the way throws, and a context is not closed already. *)
Definition succeeds (x : Resource) (h : Host) : bool :=
  match x with
  | OfAudioContext context =>
      negb (isClosed (state h context))
      && negb (throws h (ContextClose context))
  | OfMediaStream stream =>
      forallb (fun track => negb (throws h (TrackStop track)))
              (getTracks h stream)
  | OfAnimationFrame id => negb (throws h (CancelAnimationFrame id))
  end.

(** The [stop()] calls made on the tracks of a stream: all of them, or up
    to the first that throws. *)
Fixpoint stopCalls (throwing : HostCall -> bool) (tracks : list MediaStreamTrack)
  : list HostCall :=
  match tracks with
  | [] => []
  | track :: rest =>
      TrackStop track
        :: (if throwing (TrackStop track) then [] else stopCalls throwing rest)
  end.

(** No count is negative. *)
Definition nonNegative (stats : ResourceStats) : Prop :=
  (0 <= audioContexts stats /\ 0 <= mediaStreams stats
   /\ 0 <= animationFrames stats /\ 0 <= audioNodes stats)%Z.

(** The sets hold no element twice. *)
Definition wellFormed (r : ResourceCleanup) : Prop :=
  NoDup (activeAudioContexts r) /\ NoDup (activeMediaStreams r)
  /\ NoDup (activeAnimationFrames r) /\ NoDup (activeAudioNodes r).

(** The place of a call in the order of [cleanupAll]. *)
Definition priority (c : HostCall) : nat :=
  match c with
  | CancelAnimationFrame _ => 0
  | Disconnect _ => 1
  | TrackStop _ => 2
  | SpeechSynthesisCancel => 3
  | ContextClose _ => 4
  end.

(** Every call of a lower priority is made before every call of a higher
    one. *)
Definition inPriorityOrder (made : list HostCall) : Prop :=
  forall (i j : nat) (a b : HostCall),
    nth_error made i = Some a ->
    nth_error made j = Some b ->
    priority a < priority b ->
    i < j.

(** The calls made by [m] from [w]: what it added to the log. *)
Definition callsOf {A} (m : M A) (w : World) : list HostCall :=
  skipn (length (calls (host w))) (calls (host (snd (m w)))).

(** Concrete inputs used below. *)
Definition quietHost : Host :=
  {| getTracks := fun stream => [10 * stream; 10 * stream + 1];
     throws := fun _ => false;
     speechSynthesis := true;
     state := fun _ => running;
     calls := [] |}.

Definition emptyRegistry : ResourceCleanup :=
  {| activeAudioContexts := []; activeMediaStreams := [];
     activeAnimationFrames := []; activeAudioNodes := [] |}.

Definition start : World := {| registry := emptyRegistry; host := quietHost |}.

(** A browser in which stopping track 21 and closing context 7 throw. *)
Definition faultyHost : Host :=
  {| getTracks := fun stream => [10 * stream; 10 * stream + 1];
     throws := fun c =>
       match c with
       | TrackStop track => track =? 21
       | ContextClose context => context =? 7
       | _ => false
       end;
     speechSynthesis := false;
     state := fun context => if context =? 8 then closed else suspended;
     calls := [] |}.

(** A session that tracked one context, one stream, two nodes and two
    animation frames, in the order of the application. *)
Definition busy : World :=
  snd ((trackAudioContext 1 ;; trackMediaStream 2 ;; trackAudioNode 3 ;;
        trackAudioNode 4 ;; trackAnimationFrame 5 ;; trackAnimationFrame 6)
         start).

(** A session in the faulty browser: contexts 7, 8 and 9 and stream 2
    are tracked, with one node and one animation frame. *)
Definition faulty : World :=
  snd ((trackAudioContext 7 ;; trackAudioContext 8 ;; trackAudioContext 9 ;;
        trackMediaStream 2 ;; trackAudioNode 3 ;; trackAnimationFrame 5)
         {| registry := emptyRegistry; host := faultyHost |}).

End Registry.

(** ** The capture loop *)

Module Capture.

Import JS.
Open Scope float_scope.

(** The energy computed by [monitorAudio] (App.tsx, lines 600-607) from the
    bytes of [getByteTimeDomainData]: at most the first 512 bytes are read.
    [dataArray[i]] is read below the length only, so the default of [nth]
    is never used. *)
Definition rms (dataArray : list nat) : float :=
  let len := Nat.min (length dataArray) 512 in
  let sum :=
    for_loop len 0
      (fun i sum =>
         let normalized := (of_nat (nth i dataArray 0%nat) - 128) / 128 in
         sum + normalized * normalized)
      0 in
  sqrt (sum / of_nat len).

(** What one [monitorAudio] call leaves: the detector of [vadRef.current],
    the callbacks made, and whether the next tick was requested. *)
Record Tick : Type := mkTick {
  vadRef : option VAD.t;
  callbacks : list VAD.Event;
  rescheduled : bool
}.

(** [monitorAudio()] (App.tsx, lines 594-614): nothing happens, and no
    further tick is requested, unless the component is mounted and the
    [isListening] that the closure captured is true; the detector is fed
    only if [vadRef.current] is set. *)
Definition monitorAudio (isMounted isListening : bool) (vad : option VAD.t)
  (dataArray : list nat) (timeDataArray : list float) : Tick :=
  if negb isMounted || negb isListening then
    {| vadRef := vad; callbacks := []; rescheduled := false |}
  else
    match vad with
    | Some current =>
        let (next, evs) := VAD.process current (rms dataArray) timeDataArray in
        {| vadRef := Some next; callbacks := evs; rescheduled := true |}
    | None => {| vadRef := None; callbacks := []; rescheduled := true |}
    end.

(** The last [n] elements of a list: what a window of size [n] holds. *)
Definition lastn {A} (n : nat) (l : list A) : list A :=
  skipn (length l - n) l.

(** Digital silence: every byte is the mid value 128. *)
Definition silentBuffer : list nat := repeat 128%nat 1024.

End Capture.

(** ** More of the playback queue *)

Module PlaybackMore.

Import Playback.

Definition isStop (op : Op) : bool :=
  match op with Stop | Clear => true | _ => false end.

(** No [stop()] and no [clear()] in the sequence. *)
Definition neverStopped (ops : list Op) : bool :=
  forallb (fun op => negb (isStop op)) ops.

(** The elements [from], [from + 1], ... complete one after the other, each
    in the way [kind] says. *)
Definition completions (kind : nat -> Completion) (from n : nat) : list Op :=
  map (fun audio => Signal (kind audio) audio) (seq from n).

End PlaybackMore.

(** ** More of the registry *)

Module RegistryMore.

Import Registry.

(** The resources of a set whose release does not go through. *)
Definition kept (kind : nat -> Resource) (h : Host) (s : JSSet.t) : JSSet.t :=
  filter (fun x => negb (succeeds (kind x) h)) s.

(** What [cleanupAll] leaves in the registry. *)
Definition leftover (w : World) : ResourceCleanup :=
  {| activeAudioContexts :=
       kept OfAudioContext (host w) (activeAudioContexts (registry w));
     activeMediaStreams :=
       kept OfMediaStream (host w) (activeMediaStreams (registry w));
     activeAnimationFrames :=
       kept OfAnimationFrame (host w) (activeAnimationFrames (registry w));
     activeAudioNodes := [] |}.

(** Every release goes through: no call throws on a tracked resource and no
    tracked context is closed already. *)
Definition allSucceed (w : World) : bool :=
  forallb (fun x => succeeds (OfAudioContext x) (host w))
          (activeAudioContexts (registry w))
  && forallb (fun x => succeeds (OfMediaStream x) (host w))
             (activeMediaStreams (registry w))
  && forallb (fun x => succeeds (OfAnimationFrame x) (host w))
             (activeAnimationFrames (registry w)).

End RegistryMore.

(** ** VoiceAIDebugger *)

Module Debugger.

Import JS.
Import String.
Open Scope string_scope.

(** [config.logLevel]: one of the four literals of [DebugConfig]. *)
Inductive LogLevel : Type := error | warn | info | debug.

Definition levelName (l : LogLevel) : string :=
  match l with
  | error => "error"
  | warn => "warn"
  | info => "info"
  | debug => "debug"
  end.

Record DebugConfig : Type := mkConfig {
  enabled : bool;
  logLevel : LogLevel;
  includeStackTrace : bool;
  maxLogEntries : Z
}.

(** The default argument of the constructor (lines 211-216). *)
Definition defaultConfig : DebugConfig :=
  {| enabled := true; logLevel := info;
     includeStackTrace := true; maxLogEntries := 100 |}.

Record ErrorReport : Type := mkReport {
  timestamp : string;
  message : string;
  stack : string;
  context : list (string * string);
  userAgent : string;
  url : string
}.

(** What the browser supplies to one [logError] call: the clock, the stack
    of [new Error()] if any, [navigator.userAgent] and
    [window.location.href]. *)
Record Env : Type := mkEnv {
  now : string;
  errorStack : option string;
  agent : string;
  href : string
}.

(** The fields of the class (lines 207-209), and the lines written to the
    console. *)
Record t : Type := mk {
  config : DebugConfig;
  errorLog : list ErrorReport;
  performanceMetrics : list (string * list float);
  console : list string
}.

Definition create (c : DebugConfig) : t :=
  {| config := c; errorLog := []; performanceMetrics := []; console := [] |}.

(** [arr.indexOf(x)]: the first position of [x], or -1. *)
Fixpoint indexOf (x : string) (arr : list string) : Z :=
  match arr with
  | [] => (-1)%Z
  | y :: rest =>
      if String.eqb y x then 0%Z
      else
        let i := indexOf x rest in
        if (i <? 0)%Z then (-1)%Z else (i + 1)%Z
  end.

(** [shouldLog(level)] (lines 302-307). *)
Definition shouldLog (c : DebugConfig) (level : string) : bool :=
  let levels := ["error"; "warn"; "info"; "debug"] in
  let currentLevel := indexOf (levelName (logLevel c)) levels in
  let messageLevel := indexOf level levels in
  (messageLevel <=? currentLevel)%Z.

(** [logError(type, message, context)] (lines 312-332). *)
Definition logError (env : Env) (type message : string)
  (ctx : option (list (string * string))) (d : t) : t :=
  let errorReport :=
    {| timestamp := now env;
       message := type ++ ": " ++ message;
       stack := if includeStackTrace (config d)
                then match errorStack env with Some s => s | None => "" end
                else "";
       context := match ctx with Some c => c | None => [] end;
       userAgent := agent env;
       url := href env |} in
  let pushed := push (errorLog d) errorReport in
  let log :=
    if (maxLogEntries (config d) <? Z.of_nat (List.length pushed))%Z
    then shift pushed else pushed in
  {| config := config d;
     errorLog := log;
     performanceMetrics := performanceMetrics d;
     console :=
       if shouldLog (config d) "error"
       then push (console d) ("[VoiceAI:ERROR] " ++ type ++ ": " ++ message)
       else console d |}.

(** [getErrorLog()] and [clearErrorLog()] (lines 389-398). *)
Definition getErrorLog (d : t) : list ErrorReport := errorLog d.

Definition clearErrorLog (d : t) : t :=
  {| config := config d; errorLog := [];
     performanceMetrics := performanceMetrics d; console := console d |}.

(** A [Map] from strings: entries in insertion order, one per key. *)
Fixpoint mapGet {V} (key : string) (m : list (string * V)) : option V :=
  match m with
  | [] => None
  | (k, v) :: rest => if String.eqb k key then Some v else mapGet key rest
  end.

Fixpoint mapSet {V} (key : string) (v : V) (m : list (string * V))
  : list (string * V) :=
  match m with
  | [] => [(key, v)]
  | (k, old) :: rest =>
      if String.eqb k key then (k, v) :: rest
      else (k, old) :: mapSet key v rest
  end.

Definition mapHas {V} (key : string) (m : list (string * V)) : bool :=
  match mapGet key m with Some _ => true | None => false end.

(** [recordMetric(name, value)] (lines 364-369); the [push] changes the
    array held by the map. *)
Definition recordMetric (name : string) (value : float) (d : t) : t :=
  let m1 :=
    if negb (mapHas name (performanceMetrics d))
    then mapSet name [] (performanceMetrics d)
    else performanceMetrics d in
  let m2 :=
    match mapGet name m1 with
    | Some metrics => mapSet name (push metrics value) m1
    | None => m1
    end in
  {| config := config d; errorLog := errorLog d;
     performanceMetrics := m2; console := console d |}.

(** [Math.max(a, b)]: NaN if either argument is NaN, and +0 above -0. *)
Definition Math_max (a b : float) : float :=
  if (is_nan a || is_nan b)%bool then nan
  else if (a <? b)%float then b
  else if (b <? a)%float then a
  else if get_sign a then b else a.

(** What [Math.min] and [Math.max] return for the arguments [arr]. *)
Definition Math_min_all (arr : list float) : float :=
  fold_left Math_min arr infinity.

Definition Math_max_all (arr : list float) : float :=
  fold_left Math_max arr neg_infinity.

Record MetricStats : Type := mkStats {
  avg : float;
  min : float;
  max : float;
  count : nat
}.

(** The object built by [getMetricStats] from a non-empty array. *)
Definition statsOf (metrics : list float) : option MetricStats :=
  match metrics with
  | [] => None
  | _ =>
      Some {| avg := (reduce_add metrics / of_nat (List.length metrics))%float;
              min := Math_min_all metrics;
              max := Math_max_all metrics;
              count := List.length metrics |}
  end.

(** A call either returns or throws the [RangeError] with which an engine
    refuses a call with too many arguments. *)
Inductive Answer (A : Type) : Type :=
| Returned (a : A)
| RangeError.
Arguments Returned {A} a.
Arguments RangeError {A}.

(** [f(...arr)]: the array is spread into arguments.  How many arguments a
    call may take is up to the engine: [tooMany n] says whether it refuses
    [n] of them. *)
Definition spread (tooMany : nat -> bool) (f : list float -> float)
  (arr : list float) : Answer float :=
  if tooMany (List.length arr) then RangeError else Returned (f arr).

(** [getMetricStats(name)] (lines 374-384); nothing catches what
    [Math.min(...metrics)] and [Math.max(...metrics)] throw. *)
Definition getMetricStats (tooMany : nat -> bool) (name : string) (d : t)
  : Answer (option MetricStats) :=
  match mapGet name (performanceMetrics d) with
  | None => Returned None
  | Some metrics =>
      if (List.length metrics =? 0)%nat then Returned None
      else
        let avg' :=
          (reduce_add metrics / of_nat (List.length metrics))%float in
        match spread tooMany Math_min_all metrics with
        | RangeError => RangeError
        | Returned min' =>
            match spread tooMany Math_max_all metrics with
            | RangeError => RangeError
            | Returned max' =>
                Returned (Some {| avg := avg'; min := min'; max := max';
                                  count := List.length metrics |})
            end
        end
  end.

(** What the map holds for a name: nothing, or a non-empty array. *)
Definition stored (l : list float) : option (list float) :=
  match l with [] => None | _ => Some l end.

(** The values recorded under [name] by a sequence of [recordMetric] calls,
    in call order. *)
Definition recorded (name : string) (calls : list (string * float))
  : list float :=
  map snd (filter (fun c => String.eqb (fst c) name) calls).

Definition recordAll (calls : list (string * float)) (d : t) : t :=
  fold_left (fun d c => recordMetric (fst c) (snd c) d) calls d.

(** The reports of a sequence of [logError] calls. *)
Definition LogCall : Type :=
  (Env * string * string * option (list (string * string)))%type.

Definition logAll (calls : list LogCall) (d : t) : t :=
  fold_left (fun d c =>
               match c with (env, type, message, ctx) =>
                 logError env type message ctx d
               end) calls d.

(** The report that one [logError] call stores. *)
Definition reportOf (c : DebugConfig) (call : LogCall) : ErrorReport :=
  match call with
  | (env, type, message, ctx) =>
      {| timestamp := now env;
         message := type ++ ": " ++ message;
         stack := if includeStackTrace c
                  then match errorStack env with Some s => s | None => "" end
                  else "";
         context := match ctx with Some x => x | None => [] end;
         userAgent := agent env;
         url := href env |}
  end.

(** The position of a level in the list of [shouldLog]. *)
Definition severity (l : LogLevel) : Z :=
  match l with error => 0 | warn => 1 | info => 2 | debug => 3 end.

Definition someEnv : Env :=
  {| now := "2025-01-01T00:00:00.000Z"; errorStack := None;
     agent := "test"; href := "http://localhost/" |}.

End Debugger.

(** * Properties *)

(** ** The detector *)

Module VADFacts.

Import JS VAD.
Open Scope float_scope.

(** *** Calibration *)

Lemma calibrate_keeps_detection (s : t) (v : float) :
  sameDetection s (fst (calibrate s v)).
Proof.
  unfold calibrate, sameDetection.
  destruct (length (calibrationSamples s) <? calibrationTarget)%nat;
    [ | destruct (negb (isCalibrated s)) ]; cbn; repeat split.
Qed.

Lemma calibrate_returns (s : t) (v : float) :
  snd (calibrate s v)
  = negb (length (calibrationSamples s) <? calibrationTarget)%nat.
Proof.
  unfold calibrate.
  destruct (length (calibrationSamples s) <? calibrationTarget)%nat;
    [ | destruct (negb (isCalibrated s)) ]; reflexivity.
Qed.

Lemma firstn_snoc_short {A} (n : nat) (l : list A) (x : A) :
  (length l < n)%nat -> firstn n (l ++ [x]) = firstn n l ++ [x].
Proof.
  intros Hlt. rewrite firstn_app.
  rewrite (@firstn_all2 A n l) by lia.
  destruct (n - length l)%nat eqn:E; [lia | ].
  cbn. now rewrite firstn_nil.
Qed.

Lemma firstn_snoc_full {A} (n : nat) (l : list A) (x : A) :
  (n <= length l)%nat -> firstn n (l ++ [x]) = firstn n l.
Proof.
  intros Hle. rewrite firstn_app.
  replace (n - length l)%nat with 0%nat by lia.
  cbn. now rewrite app_nil_r.
Qed.

Ltac fields :=
  cbn [fst snd isSpeaking speechFrames silenceFrames energyThreshold
       zcrThreshold speechConfidence backgroundNoise calibrationSamples
       isCalibrated energyHistory zcrHistory].

Lemma calibrate_step (s : t) (vs : list float) (v : float) :
  Calibration s vs -> Calibration (fst (calibrate s v)) (vs ++ [v]).
Proof.
  unfold Calibration, calibrationTarget.
  intros (Hs & Hc & Hv & Hu).
  assert (Hlen : length (calibrationSamples s) = Nat.min 30 (length vs))
    by (rewrite Hs; apply length_firstn).
  unfold calibrate, calibrationTarget.
  rewrite length_app. cbn [length].
  destruct (length (calibrationSamples s) <? 30)%nat eqn:E.
  - apply Nat.ltb_lt in E. assert (length vs < 30)%nat by lia.
    fields. rewrite Hc in *.
    assert (F1 : (30 <? length vs)%nat = false) by (apply Nat.ltb_ge; lia).
    assert (F2 : (30 <? length vs + 1)%nat = false) by (apply Nat.ltb_ge; lia).
    rewrite F1 in *. rewrite F2.
    repeat split; try discriminate; try (now apply Hu).
    unfold push. rewrite Hs. now rewrite firstn_snoc_short.
  - apply Nat.ltb_ge in E. assert (30 <= length vs)%nat by lia.
    assert (F2 : (30 <? length vs + 1)%nat = true) by (apply Nat.ltb_lt; lia).
    rewrite F2.
    destruct (isCalibrated s) eqn:C; cbn [negb]; fields;
      repeat split; try discriminate; try congruence;
      try (now apply Hv); try assumption;
      rewrite Hs; now rewrite firstn_snoc_full.
Qed.

Lemma process_uncalibrated (s : t) (v : float) (smp : list float) :
  isCalibrated s = false ->
  process s v smp = (fst (calibrate s v), []).
Proof. intros H. unfold process. now rewrite H. Qed.

Lemma process_calibrated_fields (s : t) (v : float) (smp : list float) :
  isCalibrated s = true ->
  let s' := fst (process s v smp) in
  isCalibrated s' = true
  /\ calibrationSamples s' = calibrationSamples s
  /\ backgroundNoise s' = backgroundNoise s
  /\ energyThreshold s' = energyThreshold s.
Proof.
  intros H. unfold process. rewrite H. cbn [negb].
  destruct (energySpeech (locals s v smp) && zcrSpeech (locals s v smp));
    cbn; auto.
Qed.

Lemma calibrate_calibrated (s : t) (v : float) :
  isCalibrated s = true ->
  (calibrationTarget <= length (calibrationSamples s))%nat ->
  calibrate s v = (s, true).
Proof.
  intros H Hlen. unfold calibrate.
  apply Nat.ltb_ge in Hlen. rewrite Hlen, H. reflexivity.
Qed.

Lemma process_step (s : t) (vs : list float) (v : float) (smp : list float) :
  Calibration s vs -> Calibration (fst (process s v smp)) (vs ++ [v]).
Proof.
  intros HC. destruct (isCalibrated s) eqn:C.
  - destruct (process_calibrated_fields s v smp C) as (H1 & H2 & H3 & H4).
    destruct HC as (Hs & Hc & Hv & Hu). unfold Calibration.
    rewrite H1, H2, H3, H4.
    rewrite C in Hc. symmetry in Hc. apply Nat.ltb_lt in Hc.
    unfold calibrationTarget in *.
    repeat split; try discriminate.
    + rewrite Hs. rewrite firstn_snoc_full; [reflexivity | lia].
    + symmetry. apply Nat.ltb_lt. rewrite length_app. cbn. lia.
    + now apply Hv.
    + now apply Hv.
  - rewrite process_uncalibrated by assumption. cbn [fst].
    now apply calibrate_step.
Qed.

Lemma reset_step (s : t) (vs : list float) :
  Calibration s vs -> Calibration (reset s) vs.
Proof. unfold Calibration. cbn [reset]. fields. auto. Qed.

Lemma submitted_cons (c : Call) (cs : list Call) :
  submitted (c :: cs) = submitted [c] ++ submitted cs.
Proof. unfold submitted. cbn. now rewrite app_nil_r. Qed.

Lemma session_calibration (cs : list Call) :
  forall (s : t) (vs : list float),
    Calibration s vs -> Calibration (session s cs) (vs ++ submitted cs).
Proof.
  induction cs as [ | c cs IH]; intros s vs HC.
  - cbn. now rewrite app_nil_r.
  - rewrite submitted_cons, app_assoc.
    change (session s (c :: cs)) with (session (exec s c) cs).
    apply IH. destruct c as [v smp | v | ]; cbn.
    + now apply process_step.
    + now apply calibrate_step.
    + rewrite app_nil_r. now apply reset_step.
Qed.

Lemma init_calibration : Calibration init [].
Proof. unfold Calibration. cbn. repeat split; discriminate. Qed.

Lemma of_nat_target : of_nat calibrationTarget = 30.
Proof. reflexivity. Qed.

(** Once calibrated, no call touches the calibration. *)
Lemma calibrated_is_fixed (cs : list Call) :
  forall s : t,
    isCalibrated s = true ->
    (calibrationTarget <= length (calibrationSamples s))%nat ->
    isCalibrated (session s cs) = true
    /\ calibrationSamples (session s cs) = calibrationSamples s
    /\ backgroundNoise (session s cs) = backgroundNoise s
    /\ energyThreshold (session s cs) = energyThreshold s.
Proof.
  induction cs as [ | c cs IH]; intros s H Hlen; [ cbn; auto | ].
  change (session s (c :: cs)) with (session (exec s c) cs).
  assert (Hstep : isCalibrated (exec s c) = true
                  /\ calibrationSamples (exec s c) = calibrationSamples s
                  /\ backgroundNoise (exec s c) = backgroundNoise s
                  /\ energyThreshold (exec s c) = energyThreshold s).
  { destruct c as [v smp | v | ]; cbn [exec].
    - now apply process_calibrated_fields.
    - rewrite calibrate_calibrated by assumption. cbn. auto.
    - cbn. auto. }
  destruct Hstep as (H1 & H2 & H3 & H4).
  destruct (IH (exec s c) H1) as (K1 & K2 & K3 & K4).
  { now rewrite H2. }
  rewrite K1, K2, K3, K4. auto.
Qed.

(** X19: calibration is complete exactly when a 31st energy value has been
    submitted, whatever mix of [process], [calibrate] and [reset] calls the
    session is made of. *)
Lemma calibrated_after_31_values (cs : list Call) :
  isCalibrated (session init cs) = (30 <? length (submitted cs))%nat.
Proof.
  destruct (session_calibration cs init [] init_calibration) as (_ & Hc & _).
  cbn [app] in Hc. unfold calibrationTarget in Hc. exact Hc.
Qed.

(** C1: once calibration has completed, [energyThreshold] is exactly
    [backgroundNoise * 3], [backgroundNoise] is the mean (sum from 0 in
    submission order, divided by 30) of exactly the first 30 energy values
    submitted in the session, and no later call of any method changes
    either of them. *)
Theorem C1_threshold_is_three_times_mean_and_fixed (cs later : list Call) :
  isCalibrated (session init cs) = true ->
  let s := session init cs in
  let first30 := firstn 30 (submitted cs) in
  length first30 = 30%nat
  /\ backgroundNoise s = reduce_add first30 / 30
  /\ energyThreshold s = backgroundNoise s * 3
  /\ backgroundNoise (session init (cs ++ later)) = backgroundNoise s
  /\ energyThreshold (session init (cs ++ later)) = energyThreshold s.
Proof.
  intros Hcal s first30.
  destruct (session_calibration cs init [] init_calibration)
    as (Hs & Hc & Hv & _).
  fold s in Hs, Hc, Hv. cbn [app] in Hs, Hc.
  change (firstn calibrationTarget (submitted cs)) with first30 in Hs.
  assert (Hlen : length first30 = 30%nat).
  { unfold first30. rewrite length_firstn.
    unfold s in Hc. rewrite Hcal in Hc. symmetry in Hc.
    apply Nat.ltb_lt in Hc. unfold calibrationTarget in Hc. lia. }
  destruct (Hv Hcal) as (Hbn & Hthr).
  split; [exact Hlen | ].
  split.
  { rewrite Hbn, Hs. unfold mean. rewrite Hlen. reflexivity. }
  split; [exact Hthr | ].
  assert (Happ : session init (cs ++ later) = session s later)
    by (unfold s, session; apply fold_left_app).
  rewrite Happ.
  destruct (calibrated_is_fixed later s Hcal) as (_ & _ & K3 & K4).
  { rewrite Hs, Hlen. unfold calibrationTarget. lia. }
  auto.
Qed.

Lemma C1_witness :
  let s := session init quietSession in
  let first30 := firstn 30 (submitted quietSession) in
  length first30 = 30%nat
  /\ backgroundNoise s = reduce_add first30 / 30
  /\ energyThreshold s = backgroundNoise s * 3
  /\ backgroundNoise (session init (quietSession ++ laterCalls))
     = backgroundNoise s
  /\ energyThreshold (session init (quietSession ++ laterCalls))
     = energyThreshold s.
Proof.
  apply (C1_threshold_is_three_times_mean_and_fixed quietSession laterCalls).
  vm_compute. reflexivity.
Defined.

(** *** The calibration phase, call by call *)

Lemma sameDetection_refl (s : t) : sameDetection s s.
Proof. unfold sameDetection. repeat split. Qed.

Lemma sameDetection_trans (s1 s2 s3 : t) :
  sameDetection s1 s2 -> sameDetection s2 s3 -> sameDetection s1 s3.
Proof.
  unfold sameDetection.
  intros (A1 & A2 & A3 & A4 & A5 & A6) (B1 & B2 & B3 & B4 & B5 & B6).
  repeat split; congruence.
Qed.

Lemma calibrateAll_cons (s : t) (v : float) (vs : list float) :
  calibrateAll s (v :: vs)
  = (fst (calibrateAll (fst (calibrate s v)) vs),
     snd (calibrate s v) :: snd (calibrateAll (fst (calibrate s v)) vs)).
Proof.
  cbn [calibrateAll]. destruct (calibrate s v) as [s1 r]. cbn [fst snd].
  destruct (calibrateAll s1 vs). reflexivity.
Qed.

Lemma run_cons (s : t) (f : Frame) (frames : list Frame) :
  run s (f :: frames)
  = (fst (run (fst (processFrame s f)) frames),
     snd (processFrame s f) :: snd (run (fst (processFrame s f)) frames)).
Proof.
  cbn [run]. destruct (processFrame s f) as [s1 evs]. cbn [fst snd].
  destruct (run s1 frames). reflexivity.
Qed.

Lemma calibrate_returns_after_target (s : t) (pre : list float) (v : float) :
  Calibration s pre ->
  snd (calibrate s v) = (calibrationTarget <? S (length pre))%nat.
Proof.
  intros (Hs & _). rewrite calibrate_returns, Hs, length_firstn.
  unfold calibrationTarget.
  destruct (Nat.ltb_spec (Nat.min 30 (length pre)) 30);
    destruct (Nat.ltb_spec 30 (S (length pre))); cbn; try reflexivity; lia.
Qed.

Lemma calibrateAll_spec (vs : list float) :
  forall (s : t) (pre : list float),
    Calibration s pre ->
    snd (calibrateAll s vs)
    = map (fun k => (calibrationTarget <? k)%nat)
          (seq (S (length pre)) (length vs))
    /\ Calibration (fst (calibrateAll s vs)) (pre ++ vs)
    /\ sameDetection s (fst (calibrateAll s vs)).
Proof.
  induction vs as [ | v vs IH]; intros s pre HC.
  - cbn. rewrite app_nil_r. auto using sameDetection_refl.
  - rewrite calibrateAll_cons. cbn [fst snd length seq map].
    destruct (IH (fst (calibrate s v)) (pre ++ [v])) as (I1 & I2 & I3).
    { now apply calibrate_step. }
    rewrite length_app in I1. cbn [length] in I1.
    replace (length pre + 1)%nat with (S (length pre)) in I1 by lia.
    rewrite <- app_assoc in I2. cbn [app] in I2.
    split; [ | split ].
    + rewrite I1. f_equal. now apply calibrate_returns_after_target.
    + exact I2.
    + eapply sameDetection_trans; [ apply calibrate_keeps_detection | exact I3 ].
Qed.

Lemma run_collecting (frames : list Frame) :
  forall (s : t) (pre : list float),
    Calibration s pre ->
    (length pre + length frames <= S calibrationTarget)%nat ->
    snd (run s frames) = repeat [] (length frames)
    /\ fst (run s frames) = fst (calibrateAll s (map volume frames)).
Proof.
  induction frames as [ | f frames IH]; intros s pre HC Hlen.
  - cbn. auto.
  - cbn [length] in Hlen. unfold calibrationTarget in Hlen.
    assert (Hun : isCalibrated s = false).
    { destruct HC as (_ & Hc & _). rewrite Hc. apply Nat.ltb_ge.
      unfold calibrationTarget. lia. }
    rewrite run_cons. cbn [map]. rewrite calibrateAll_cons.
    unfold processFrame. rewrite process_uncalibrated by assumption.
    cbn [fst snd length repeat].
    destruct (IH (fst (calibrate s (volume f))) (pre ++ [volume f]))
      as (I1 & I2).
    { now apply calibrate_step. }
    { rewrite length_app. cbn. unfold calibrationTarget. lia. }
    rewrite I1, I2. auto.
Qed.

(** C4, as the code has it: each of the first 30 [calibrate] calls only
    stores its value and returns false; calibration completes on the next
    call, the 31st, which sets [isCalibrated], computes [backgroundNoise]
    and [energyThreshold] from the 30 stored values, does not store its
    own value and returns true, as every later call does.  Until then, that
    is for the first 31 frames of a session, [process] makes no callback
    and leaves the state machine and the smoothing window untouched. *)
Theorem C4_calibration_completes_on_call_after_target
  (vs : list float) (frames : list Frame) :
  let r := calibrateAll init vs in
  let early := firstn 31 frames in
  snd r = map (fun k => (30 <? k)%nat) (seq 1 (length vs))
  /\ isCalibrated (fst r) = (30 <? length vs)%nat
  /\ calibrationSamples (fst r) = firstn 30 vs
  /\ backgroundNoise (fst r)
     = (if (30 <? length vs)%nat then reduce_add (firstn 30 vs) / 30 else 0)
  /\ energyThreshold (fst r)
     = (if (30 <? length vs)%nat then backgroundNoise (fst r) * 3 else 0.015)
  /\ snd (run init early) = repeat [] (length early)
  /\ fst (run init early) = fst (calibrateAll init (map volume early))
  /\ sameDetection init (fst (run init early)).
Proof.
  intros r early.
  destruct (calibrateAll_spec vs init [] init_calibration)
    as (R1 & (Hs & Hc & Hv & Hu) & _).
  fold r in R1, Hs, Hc, Hv, Hu. cbn [app length] in *.
  change calibrationTarget with 30%nat in *.
  split; [exact R1 | ]. split; [exact Hc | ]. split; [exact Hs | ].
  assert (Hbt :
    backgroundNoise (fst r)
    = (if (30 <? length vs)%nat then reduce_add (firstn 30 vs) / 30 else 0)
    /\ energyThreshold (fst r)
       = (if (30 <? length vs)%nat then backgroundNoise (fst r) * 3
          else 0.015)).
  { rewrite <- Hc. destruct (isCalibrated (fst r)) eqn:C.
    - destruct (Hv eq_refl) as (Hb & Ht). split; [ | exact Ht ].
      rewrite Hb, Hs. unfold mean. rewrite length_firstn.
      symmetry in Hc. apply Nat.ltb_lt in Hc.
      replace (Nat.min 30 (length vs)) with 30%nat by lia. reflexivity.
    - destruct (Hu eq_refl) as (Hb & Ht). rewrite Hb, Ht. split; reflexivity. }
  destruct Hbt as (Hb & Ht). split; [exact Hb | ]. split; [exact Ht | ].
  destruct (run_collecting early init [] init_calibration) as (E1 & E2).
  { cbn [length]. unfold early, calibrationTarget. rewrite length_firstn. lia. }
  split; [exact E1 | ]. split; [exact E2 | ].
  rewrite E2.
  now destruct (calibrateAll_spec (map volume early) init [] init_calibration)
    as (_ & _ & HD).
Qed.

(** C4 as stated fails: after the call that supplies the 30th observation
    the detector is not calibrated, and that call returned false. *)
Lemma C4_thirtieth_call_does_not_complete :
  let r := calibrateAll init (repeat 0.5 30) in
  length (calibrationSamples (fst r)) = 30%nat
  /\ isCalibrated (fst r) = false
  /\ nth 29 (snd r) true = false
  /\ energyThreshold (fst r) = energyThreshold init.
Proof. vm_compute. repeat split. Qed.

(** *** The state machine *)

Lemma process_speechLike (s : t) (f : Frame) :
  isCalibrated s = true ->
  speechLike s f = true ->
  let r := processFrame s f in
  let fire := negb (isSpeaking s) && (2 <? S (speechFrames s))%nat in
  isCalibrated (fst r) = true
  /\ isSpeaking (fst r) = (if fire then true else isSpeaking s)
  /\ speechFrames (fst r) = S (speechFrames s)
  /\ silenceFrames (fst r) = 0%nat
  /\ speechStarts (snd r) = (if fire then 1 else 0)%nat
  /\ speechEnds (snd r) = 0%nat.
Proof.
  intros Hcal Hsl. unfold speechLike in Hsl. cbv zeta in Hsl.
  unfold processFrame, process. rewrite Hcal. cbn [negb]. cbv zeta.
  rewrite Hsl. unfold speechStartThreshold.
  destruct (negb (isSpeaking s) && (2 <? S (speechFrames s))%nat);
    fields; repeat split; assumption.
Qed.

Lemma process_notSpeechLike (s : t) (f : Frame) :
  isCalibrated s = true ->
  speechLike s f = false ->
  let r := processFrame s f in
  let fire := isSpeaking s && (8 <? S (silenceFrames s))%nat in
  isCalibrated (fst r) = true
  /\ isSpeaking (fst r) = (if fire then false else isSpeaking s)
  /\ silenceFrames (fst r) = S (silenceFrames s)
  /\ speechFrames (fst r) = 0%nat
  /\ speechEnds (snd r) = (if fire then 1 else 0)%nat
  /\ speechStarts (snd r) = 0%nat.
Proof.
  intros Hcal Hsl. unfold speechLike in Hsl. cbv zeta in Hsl.
  unfold processFrame, process. rewrite Hcal. cbn [negb]. cbv zeta.
  rewrite Hsl. unfold speechEndThreshold.
  destruct (isSpeaking s && (8 <? S (silenceFrames s))%nat);
    fields; repeat split; assumption.
Qed.

Lemma allClassified_cons (want : bool) (s : t) (f : Frame) (frames : list Frame) :
  allClassified want s (f :: frames) = true ->
  speechLike s f = want
  /\ allClassified want (fst (processFrame s f)) frames = true.
Proof.
  cbn [allClassified]. intros H. apply andb_prop in H. destruct H as (H1 & H2).
  split; [ | exact H2 ]. now apply eqb_prop.
Qed.

Lemma run_speechLike (frames : list Frame) :
  forall s : t,
    isCalibrated s = true ->
    allClassified true s frames = true ->
    map speechStarts (snd (run s frames))
    = startPattern (isSpeaking s) (speechFrames s) (length frames)
    /\ map speechEnds (snd (run s frames)) = repeat 0%nat (length frames)
    /\ speechFrames (fst (run s frames))
       = (speechFrames s + length frames)%nat
    /\ (isSpeaking s = true -> isSpeaking (fst (run s frames)) = true).
Proof.
  induction frames as [ | f frames IH]; intros s Hcal Hall.
  - cbn. auto.
  - apply allClassified_cons in Hall. destruct Hall as (Hf & Hrest).
    destruct (process_speechLike s f Hcal Hf) as (P1 & P2 & P3 & P4 & P5 & P6).
    destruct (IH _ P1 Hrest) as (I1 & I2 & I3 & I4).
    rewrite run_cons. cbn [fst snd map length startPattern repeat].
    rewrite I1, I2, I3, P2, P3, P5, P6. unfold speechStartThreshold.
    repeat split.
    + lia.
    + intros Hsp. apply I4. rewrite P2, Hsp. cbn. reflexivity.
Qed.

Lemma run_notSpeechLike (frames : list Frame) :
  forall s : t,
    isCalibrated s = true ->
    allClassified false s frames = true ->
    map speechEnds (snd (run s frames))
    = endPattern (isSpeaking s) (silenceFrames s) (length frames)
    /\ map speechStarts (snd (run s frames)) = repeat 0%nat (length frames)
    /\ silenceFrames (fst (run s frames))
       = (silenceFrames s + length frames)%nat
    /\ (isSpeaking s = false -> isSpeaking (fst (run s frames)) = false).
Proof.
  induction frames as [ | f frames IH]; intros s Hcal Hall.
  - cbn. auto.
  - apply allClassified_cons in Hall. destruct Hall as (Hf & Hrest).
    destruct (process_notSpeechLike s f Hcal Hf)
      as (P1 & P2 & P3 & P4 & P5 & P6).
    destruct (IH _ P1 Hrest) as (I1 & I2 & I3 & I4).
    rewrite run_cons. cbn [fst snd map length endPattern repeat].
    rewrite I1, I2, I3, P2, P3, P5, P6. unfold speechEndThreshold.
    repeat split.
    + lia.
    + intros Hsp. apply I4. rewrite P2, Hsp. cbn. reflexivity.
Qed.

Lemma startPattern_speaking (n : nat) :
  forall k : nat, startPattern true k n = repeat 0%nat n.
Proof. induction n as [ | n IH]; intros k; cbn; [ | rewrite IH ]; reflexivity. Qed.

Lemma endPattern_silent (n : nat) :
  forall k : nat, endPattern false k n = repeat 0%nat n.
Proof. induction n as [ | n IH]; intros k; cbn; [ | rewrite IH ]; reflexivity. Qed.

Lemma startPattern_from_silence (n : nat) :
  startPattern false 0 n = firstn n [0; 0; 1]%nat ++ repeat 0%nat (n - 3).
Proof.
  do 3 (destruct n as [ | n]; [ reflexivity | ]).
  cbn. rewrite startPattern_speaking, Nat.sub_0_r, firstn_nil. reflexivity.
Qed.

Lemma endPattern_from_speech (n : nat) :
  endPattern true 0 n
  = firstn n (repeat 0%nat 8 ++ [1%nat]) ++ repeat 0%nat (n - 9).
Proof.
  do 9 (destruct n as [ | n]; [ reflexivity | ]).
  cbn. rewrite endPattern_silent, Nat.sub_0_r, firstn_nil. reflexivity.
Qed.

Lemma list_sum_zeros (n : nat) : list_sum (repeat 0%nat n) = 0%nat.
Proof. induction n; cbn; auto. Qed.

Lemma run_speechLike_flag (frames : list Frame) :
  forall s : t,
    isCalibrated s = true ->
    allClassified true s frames = true ->
    isSpeaking (fst (run s frames))
    = isSpeaking s
      || ((0 <? length frames) && (2 <? speechFrames s + length frames))%nat.
Proof.
  induction frames as [ | f frames IH]; intros s Hcal Hall.
  - cbn. now rewrite orb_false_r.
  - apply allClassified_cons in Hall. destruct Hall as (Hf & Hrest).
    destruct (process_speechLike s f Hcal Hf) as (P1 & P2 & P3 & _).
    rewrite run_cons. cbn [fst length]. rewrite (IH _ P1 Hrest), P2, P3.
    destruct (isSpeaking s); cbn [negb andb orb]; [ reflexivity | ].
    destruct (Nat.ltb_spec 2 (S (speechFrames s)));
      destruct (Nat.ltb_spec 0 (length frames));
      destruct (Nat.ltb_spec 2 (S (speechFrames s) + length frames));
      destruct (Nat.ltb_spec 0 (S (length frames)));
      destruct (Nat.ltb_spec 2 (speechFrames s + S (length frames)));
      cbn; try reflexivity; lia.
Qed.

Lemma run_notSpeechLike_flag (frames : list Frame) :
  forall s : t,
    isCalibrated s = true ->
    allClassified false s frames = true ->
    isSpeaking (fst (run s frames))
    = isSpeaking s
      && negb ((0 <? length frames)
               && (8 <? silenceFrames s + length frames))%nat.
Proof.
  induction frames as [ | f frames IH]; intros s Hcal Hall.
  - cbn. now rewrite andb_true_r.
  - apply allClassified_cons in Hall. destruct Hall as (Hf & Hrest).
    destruct (process_notSpeechLike s f Hcal Hf) as (P1 & P2 & P3 & _).
    rewrite run_cons. cbn [fst length]. rewrite (IH _ P1 Hrest), P2, P3.
    destruct (isSpeaking s); cbn [negb andb orb]; [ | reflexivity ].
    destruct (Nat.ltb_spec 8 (S (silenceFrames s)));
      destruct (Nat.ltb_spec 0 (length frames));
      destruct (Nat.ltb_spec 8 (S (silenceFrames s) + length frames));
      destruct (Nat.ltb_spec 0 (S (length frames)));
      destruct (Nat.ltb_spec 8 (silenceFrames s + S (length frames)));
      cbn; try reflexivity; lia.
Qed.

(** Where a run can begin: a frame that is not speech-like, [reset] and
    construction all leave the counter of speech-like frames at 0, and a
    speech-like frame leaves the counter of the others at 0. *)
Lemma counters_at_run_start (s : t) (f : Frame) :
  isCalibrated s = true ->
  speechFrames init = 0%nat /\ silenceFrames init = 0%nat
  /\ speechFrames (reset s) = 0%nat /\ silenceFrames (reset s) = 0%nat
  /\ (speechLike s f = false -> speechFrames (fst (processFrame s f)) = 0%nat)
  /\ (speechLike s f = true -> silenceFrames (fst (processFrame s f)) = 0%nat).
Proof.
  intros Hcal. repeat split.
  - intros H. now destruct (process_notSpeechLike s f Hcal H) as (_ & _ & _ & P & _).
  - intros H. now destruct (process_speechLike s f Hcal H) as (_ & _ & _ & P & _).
Qed.

Lemma exec_silence_counter (s : t) (c : Call) :
  (isSpeaking s = false -> speechFrames s <= 2)%nat ->
  (isSpeaking (exec s c) = false -> speechFrames (exec s c) <= 2)%nat.
Proof.
  intros Hs. destruct c as [v smp | v | ]; cbn [exec].
  - destruct (isCalibrated s) eqn:C.
    + change (process s v smp) with (processFrame s (mkFrame v smp)).
      destruct (speechLike s (mkFrame v smp)) eqn:L.
      * destruct (process_speechLike s _ C L) as (_ & P2 & P3 & _).
        rewrite P2, P3.
        destruct (isSpeaking s); cbn [negb andb]; [ discriminate | ].
        destruct (Nat.ltb_spec 2 (S (speechFrames s))); [ discriminate | lia ].
      * destruct (process_notSpeechLike s _ C L) as (_ & _ & _ & P4 & _).
        rewrite P4. lia.
    + rewrite process_uncalibrated by assumption. cbn [fst].
      destruct (calibrate_keeps_detection s v) as (D1 & D2 & _).
      now rewrite D1, D2.
  - destruct (calibrate_keeps_detection s v) as (D1 & D2 & _).
    now rewrite D1, D2.
  - cbn. lia.
Qed.

(** In every state a session reaches, the detector in the Silence state has
    counted at most two speech-like frames in a row. *)
Lemma silence_counter_bound (cs : list Call) :
  (isSpeaking (session init cs) = false ->
   speechFrames (session init cs) <= 2)%nat.
Proof.
  unfold session. revert cs.
  assert (G : forall cs s,
             (isSpeaking s = false -> speechFrames s <= 2)%nat ->
             (isSpeaking (fold_left exec cs s) = false ->
              speechFrames (fold_left exec cs s) <= 2)%nat).
  { induction cs as [ | c cs IH]; intros s Hs; [ exact Hs | ].
    cbn [fold_left]. apply IH. now apply exec_silence_counter. }
  intros cs. apply G. cbn. lia.
Qed.

Lemma startPattern_from_counter (k n : nat) :
  (k <= 2)%nat ->
  startPattern false k n
  = firstn n (repeat 0%nat (2 - k) ++ [1%nat]) ++ repeat 0%nat (n - (3 - k)).
Proof.
  intros Hk.
  destruct k as [ | [ | [ | k]]]; [ | | | lia ]; cbn [Nat.sub repeat app].
  - apply startPattern_from_silence.
  - do 2 (destruct n as [ | n]; [ reflexivity | ]).
    cbn. rewrite startPattern_speaking, Nat.sub_0_r, firstn_nil. reflexivity.
  - destruct n as [ | n]; [ reflexivity | ].
    cbn. rewrite startPattern_speaking, Nat.sub_0_r, firstn_nil. reflexivity.
Qed.

(** The run seen from any frame of it: in the Silence state with [k]
    speech-like frames already counted, [onSpeechStart] is called once, on
    the frame that is the third of the run. *)
Lemma speech_start_from_counter (s : t) (frames : list Frame) :
  isCalibrated s = true ->
  isSpeaking s = false ->
  (speechFrames s <= 2)%nat ->
  allClassified true s frames = true ->
  map speechStarts (snd (run s frames))
  = firstn (length frames) (repeat 0%nat (2 - speechFrames s) ++ [1%nat])
    ++ repeat 0%nat (length frames - (3 - speechFrames s)).
Proof.
  intros Hcal Hsil Hk Hall.
  destruct (run_speechLike frames s Hcal Hall) as (R1 & _).
  rewrite R1, Hsil. now apply startPattern_from_counter.
Qed.

(** C2: a calibrated detector in the Silence state at the start of a run
    of frames that are each classified speech-like calls [onSpeechStart]
    on the third frame of the run and on no other: not on the first two,
    and not again however long the run lasts; it never calls
    [onSpeechEnd] in the run. *)
Theorem C2_speech_start_fires_once_on_third_frame
  (s : t) (frames : list Frame) :
  isCalibrated s = true ->
  isSpeaking s = false ->
  speechFrames s = 0%nat ->
  allClassified true s frames = true ->
  let n := length frames in
  let starts := map speechStarts (snd (run s frames)) in
  starts = firstn n [0; 0; 1]%nat ++ repeat 0%nat (n - 3)
  /\ list_sum starts = (if (2 <? n)%nat then 1 else 0)%nat
  /\ map speechEnds (snd (run s frames)) = repeat 0%nat n
  /\ isSpeaking (fst (run s frames)) = (2 <? n)%nat.
Proof.
  intros Hcal Hsil Hzero Hall n starts.
  destruct (run_speechLike frames s Hcal Hall) as (R1 & R2 & _).
  pose proof (run_speechLike_flag frames s Hcal Hall) as R3.
  rewrite Hsil, Hzero in R1. rewrite Hsil, Hzero in R3.
  fold n in R1, R2, R3. fold starts in R1.
  rewrite startPattern_from_silence in R1.
  split; [ exact R1 | ]. split; [ | split; [ exact R2 | ] ].
  - rewrite R1. do 3 (destruct n as [ | n]; [ reflexivity | ]).
    cbn. rewrite firstn_nil. cbn. now rewrite list_sum_zeros.
  - rewrite R3. cbn [orb plus]. destruct n; reflexivity.
Qed.

Lemma C2_witness :
  let starts := map speechStarts (snd (run calibrated (repeat loudFrame 5))) in
  starts = [0; 0; 1; 0; 0]%nat
  /\ list_sum starts = 1%nat
  /\ map speechEnds (snd (run calibrated (repeat loudFrame 5)))
     = [0; 0; 0; 0; 0]%nat
  /\ isSpeaking (fst (run calibrated (repeat loudFrame 5))) = true.
Proof.
  apply (C2_speech_start_fires_once_on_third_frame
           calibrated (repeat loudFrame 5));
    vm_compute; reflexivity.
Defined.

(** C3: a calibrated detector in the Speech state at the start of a run of
    frames that are each classified not speech-like calls [onSpeechEnd] on
    the ninth frame of the run and on no other; a run of fewer than nine
    such frames makes no [onSpeechEnd] call. *)
Theorem C3_speech_end_fires_once_on_ninth_frame
  (s : t) (frames : list Frame) :
  isCalibrated s = true ->
  isSpeaking s = true ->
  silenceFrames s = 0%nat ->
  allClassified false s frames = true ->
  let n := length frames in
  let ends := map speechEnds (snd (run s frames)) in
  ends = firstn n (repeat 0%nat 8 ++ [1%nat]) ++ repeat 0%nat (n - 9)
  /\ list_sum ends = (if (8 <? n)%nat then 1 else 0)%nat
  /\ map speechStarts (snd (run s frames)) = repeat 0%nat n
  /\ isSpeaking (fst (run s frames)) = negb (8 <? n)%nat.
Proof.
  intros Hcal Hsp Hzero Hall n ends.
  destruct (run_notSpeechLike frames s Hcal Hall) as (R1 & R2 & _).
  pose proof (run_notSpeechLike_flag frames s Hcal Hall) as R3.
  rewrite Hsp, Hzero in R1. rewrite Hsp, Hzero in R3.
  fold n in R1, R2, R3. fold ends in R1.
  rewrite endPattern_from_speech in R1.
  split; [ exact R1 | ]. split; [ | split; [ exact R2 | ] ].
  - rewrite R1. do 9 (destruct n as [ | n]; [ reflexivity | ]).
    cbn. rewrite firstn_nil. cbn. now rewrite list_sum_zeros.
  - rewrite R3. cbn [andb plus]. destruct n; reflexivity.
Qed.

Lemma C3_witness :
  let ends := map speechEnds (snd (run speaking (repeat quietFrame 11))) in
  ends = [0; 0; 0; 0; 0; 0; 0; 0; 1; 0; 0]%nat
  /\ list_sum ends = 1%nat
  /\ map speechStarts (snd (run speaking (repeat quietFrame 11)))
     = repeat 0%nat 11
  /\ isSpeaking (fst (run speaking (repeat quietFrame 11))) = false.
Proof.
  apply (C3_speech_end_fires_once_on_ninth_frame
           speaking (repeat quietFrame 11));
    vm_compute; reflexivity.
Defined.

(** *** The zero-crossing rate *)

Lemma for_loop_zcr (rest : list float) :
  forall (pre : list float) (x : float) (acc : nat),
    for_loop (length rest) (S (length pre))
      (fun i zcr =>
         if nth i (pre ++ x :: rest) nan * nth (i - 1) (pre ++ x :: rest) nan <? 0
         then S zcr else zcr)
      acc
    = (acc + signChanges (x :: rest))%nat.
Proof.
  induction rest as [ | y rest IH]; intros pre x acc.
  - cbn. lia.
  - cbn [length for_loop].
    replace (S (length pre) - 1)%nat with (length pre) by lia.
    replace (nth (S (length pre)) (pre ++ x :: y :: rest) nan) with y.
    2:{ rewrite app_nth2 by lia.
        replace (S (length pre) - length pre)%nat with 1%nat by lia.
        reflexivity. }
    replace (nth (length pre) (pre ++ x :: y :: rest) nan) with x.
    2:{ rewrite app_nth2 by lia. rewrite Nat.sub_diag. reflexivity. }
    specialize (IH (pre ++ [x]) y).
    rewrite <- app_assoc in IH. cbn [app] in IH.
    rewrite length_app in IH. cbn [length] in IH.
    replace (length pre + 1)%nat with (S (length pre)) in IH by lia.
    rewrite IH.
    change (signChanges (x :: y :: rest))
      with ((if (y * x <? 0)%float then 1 else 0) + signChanges (y :: rest))%nat.
    destruct (y * x <? 0); lia.
Qed.

(** The loop counts the adjacent pairs of strictly negative product. *)
Lemma zcr_loop_counts (samples : list float) :
  zcr_loop samples = signChanges samples.
Proof.
  destruct samples as [ | x rest]; [ reflexivity | ].
  unfold zcr_loop. cbn [length].
  replace (S (length rest) - 1)%nat with (length rest) by lia.
  exact (for_loop_zcr rest [] x 0%nat).
Qed.

(** C5, as the code has it: [calculateZCR] returns 0.5 on the empty array
    and 0.75 on [1, -1, 1, -1] (three sign changes over four samples); on
    a frame that is not empty it returns the number of adjacent pairs
    whose product is strictly negative divided by the frame length.  The
    older copy computes the same quotient, and 0 / 0 = NaN on the empty
    array. *)
Theorem C5_zero_crossing_rate (x : float) (rest : list float) :
  calculateZCR [] = 0.5
  /\ calculateZCR [1; -1; 1; -1] = 0.75
  /\ calculateZCR (x :: rest)
     = of_nat (signChanges (x :: rest)) / of_nat (length (x :: rest))
  /\ calculateZCR_odia (x :: rest) = calculateZCR (x :: rest)
  /\ calculateZCR_odia [1; -1; 1; -1] = 0.75
  /\ calculateZCR_odia [] = nan.
Proof.
  repeat split; try reflexivity.
  unfold calculateZCR. cbn [length Nat.eqb]. now rewrite zcr_loop_counts.
Qed.

(** C5 as stated fails: on [1, -1, 1, -1] the result is not 1. *)
Lemma C5_alternating_frame_is_not_one :
  calculateZCR [1; -1; 1; -1] <> 1 /\ calculateZCR_odia [1; -1; 1; -1] <> 1.
Proof.
  split; intros H; apply (f_equal (fun r => r <? 1)) in H;
    vm_compute in H; discriminate H.
Qed.

(** *** Calibration in complete silence *)

(** C10: a session whose first 30 energy values are all 0 completes
    calibration (on the next frame, whatever it is) with [backgroundNoise]
    and [energyThreshold] both 0, and they stay 0; from then on every
    [process] call divides the smoothed energy by [energyThreshold * 3],
    which is 0, with no test of the divisor, and classifies the energy as
    speech exactly when the smoothed energy is above 0.  A frame of energy
    0 then reports the confidence NaN. *)
Theorem C10_zero_calibration_divides_by_zero
  (f : Frame) (cs : list Call) (v : float) (smp : list float) :
  let s0 := fst (run init (repeat zeroFrame 30 ++ [f])) in
  let s := session s0 cs in
  let l := locals s v smp in
  (isCalibrated s0 = true /\ backgroundNoise s0 = 0 /\ energyThreshold s0 = 0)
  /\ (isCalibrated s = true /\ backgroundNoise s = 0 /\ energyThreshold s = 0)
  /\ energyThreshold s * 3 = 0
  /\ energyConf l = Math_min (avgEnergy l / 0) 1
  /\ energySpeech l = (0 <? avgEnergy l)
  /\ snd (process zeroCalibrated 0 []) = [OnVolumeChange 0; OnConfidence nan]
  /\ speechLike zeroCalibrated (mkFrame 0.001 []) = true.
Proof.
  intros s0 s l.
  assert (H0 : isCalibrated s0 = true /\ backgroundNoise s0 = 0
               /\ energyThreshold s0 = 0
               /\ length (calibrationSamples s0) = 30%nat).
  { unfold s0. vm_compute. repeat split. }
  destruct H0 as (A1 & A2 & A3 & A4).
  destruct (calibrated_is_fixed cs s0 A1) as (K1 & _ & K3 & K4).
  { rewrite A4. unfold calibrationTarget. lia. }
  fold s in K1, K3, K4. rewrite A2 in K3. rewrite A3 in K4.
  split; [ auto | ]. split; [ auto | ].
  split; [ rewrite K4; reflexivity | ].
  split; [ | split; [ | split; reflexivity ] ].
  - unfold l, locals. cbn [energyConf avgEnergy]. rewrite K4. reflexivity.
  - unfold l, locals. cbn [energySpeech avgEnergy]. rewrite K4. reflexivity.
Qed.

End VADFacts.

(** ** The playback queue *)

Module PlaybackFacts.

Import Playback.

#[local] Arguments silence : simpl never.

Lemma silence_current (audio : Audio) : silence audio [audio] = [].
Proof. unfold silence. cbn [filter]. now rewrite Nat.eqb_refl. Qed.

Lemma silence_absent (audio : Audio) (playing : list Audio) :
  ~ In audio (silence audio playing).
Proof.
  unfold silence. intros H. apply filter_In in H. destruct H as (_ & H).
  now rewrite Nat.eqb_refl in H.
Qed.

Lemma enqueued_cons (op : Op) (ops : list Op) :
  enqueued (op :: ops) = enqueued [op] ++ enqueued ops.
Proof. unfold enqueued. cbn. now rewrite app_nil_r. Qed.

(** [playNext] starts the head of the queue, if there is one. *)
Lemma playNext_started (st : State) :
  started (host (playNext st))
  = started (host st) ++ firstn 1 (queue (mgr st)).
Proof.
  unfold playNext. destruct (queue (mgr st)); cbn; [ now rewrite app_nil_r | reflexivity ].
Qed.

Lemma add_step (b : Blob) (st : State) (adds : list Blob) :
  consistent st ->
  started (host st) ++ queue (mgr st) = adds ->
  consistent (add b st)
  /\ started (host (add b st)) ++ queue (mgr (add b st)) = adds ++ [b].
Proof.
  destruct st as [[q playing cur] [st snd]].
  unfold consistent, add. cbn. intros HC HF.
  destruct playing; cbn.
  - split; [ exact HC | ]. now rewrite app_assoc, HF.
  - destruct HC as (Hq & Hs). subst q snd. unfold playNext. cbn.
    rewrite app_nil_r in HF. subst adds. split.
    + exists (length st). rewrite length_app. cbn.
      repeat split. lia.
    + now rewrite app_nil_r.
Qed.

Lemma signal_step (c : Completion) (audio : Audio) (st : State) (adds : list Blob) :
  consistent st ->
  started (host st) ++ queue (mgr st) = adds ->
  isCurrent audio st = true ->
  consistent (signal c audio st)
  /\ started (host (signal c audio st)) ++ queue (mgr (signal c audio st))
     = adds.
Proof.
  destruct st as [[q playing cur] [st snd]].
  unfold consistent, isCurrent, signal. cbn. intros HC HF Hcur.
  destruct playing.
  - destruct HC as (a & Ha & Hs & Hl). subst cur snd.
    apply andb_prop in Hcur. destruct Hcur as (Heq & _).
    apply Nat.eqb_eq in Heq. subst a.
    rewrite silence_current. unfold playNext. cbn.
    destruct q as [ | b rest]; cbn.
    + auto.
    + split.
      * exists (length st). rewrite length_app. cbn. repeat split. lia.
      * rewrite <- app_assoc. exact HF.
  - destruct HC as (_ & Hs). subst snd.
    destruct cur; [ | discriminate ].
    apply andb_prop in Hcur. destruct Hcur as (_ & Hex). discriminate.
Qed.

Lemma run_regular (ops : list Op) :
  forall (st : State) (adds : list Blob),
    consistent st ->
    started (host st) ++ queue (mgr st) = adds ->
    regular st ops = true ->
    consistent (run st ops)
    /\ started (host (run st ops)) ++ queue (mgr (run st ops))
       = adds ++ enqueued ops.
Proof.
  induction ops as [ | op ops IH]; intros st adds HC HF Hreg.
  - cbn. now rewrite app_nil_r.
  - cbn [regular] in Hreg. apply andb_prop in Hreg.
    destruct Hreg as (Hop & Hrest).
    change (run st (op :: ops)) with (run (step st op) ops).
    rewrite enqueued_cons, app_assoc.
    destruct op as [b | | | c a]; try discriminate; cbn [step] in *.
    + destruct (add_step b st adds HC HF) as (C1 & F1).
      now apply IH.
    + destruct (signal_step c a st adds HC HF Hop) as (C1 & F1).
      cbn. rewrite app_nil_r. now apply IH.
Qed.

(** A regular sequence stays regular when it is cut short: the states it
    passes through are reached by regular sequences too. *)
Lemma regular_prefix (ops1 ops2 : list Op) :
  forall st : State,
    regular st (ops1 ++ ops2) = true -> regular st ops1 = true.
Proof.
  induction ops1 as [ | op ops1 IH]; intros st H; [ reflexivity | ].
  cbn [app regular] in *. apply andb_prop in H. destruct H as (H1 & H2).
  rewrite H1. cbn [andb]. now apply IH.
Qed.

Lemma consistent_one_sounding (st : State) :
  consistent st -> length (sounding (host st)) <= 1.
Proof.
  unfold consistent. destruct (isPlaying (mgr st)).
  - intros (a & _ & Hs & _). rewrite Hs. cbn. lia.
  - intros (_ & Hs). rewrite Hs. cbn. lia.
Qed.

(** C7: along every sequence of [add] calls and of completions (ended,
    error, rejected play) of the item that is playing at the time, at most
    one element is playing in every state, and the blobs whose playback
    has begun, followed by those still queued, are the blobs handed to
    [add] in call order: playback begins in enqueue order. *)
Theorem C7_one_at_a_time_in_fifo_order (ops : list Op) :
  regular init ops = true ->
  let st := run init ops in
  length (sounding (host st)) <= 1
  /\ started (host st) ++ queue (mgr st) = enqueued ops
  /\ started (host st) = firstn (length (started (host st))) (enqueued ops).
Proof.
  intros Hreg st.
  destruct (run_regular ops init []) as (HC & HF); try assumption.
  { cbn. auto. }
  { reflexivity. }
  fold st in HC, HF. cbn [app] in HF.
  split; [ now apply consistent_one_sounding | ].
  split; [ exact HF | ].
  rewrite <- HF. rewrite firstn_app, Nat.sub_diag, firstn_all.
  cbn. now rewrite app_nil_r.
Qed.

Lemma C7_witness :
  let ops := [Add 10; Add 11; Signal Ended 0; Add 12; Signal Errored 1;
              Signal PlayRejected 2; Add 13] in
  let st := run init ops in
  length (sounding (host st)) <= 1
  /\ started (host st) ++ queue (mgr st) = enqueued ops
  /\ started (host st) = firstn (length (started (host st))) (enqueued ops).
Proof.
  apply (C7_one_at_a_time_in_fifo_order
           [Add 10; Add 11; Signal Ended 0; Add 12; Signal Errored 1;
            Signal PlayRejected 2; Add 13]).
  vm_compute. reflexivity.
Defined.

(** What [stop()] leaves, and what a completion handler does in any state
    [later]: it calls [playNext], which starts the head of the queue if
    there is one, without looking at the element the signal is for. *)
Lemma stop_and_late_completion
  (st later : State) (audio : Audio) (c : Completion) :
  let stopped := stop st in
  queue (mgr stopped) = []
  /\ isPlaying (mgr stopped) = false
  /\ currentAudio (mgr stopped) = None
  /\ started (host stopped) = started (host st)
  /\ (currentAudio (mgr st) = Some audio ->
      ~ In audio (sounding (host stopped)))
  /\ started (host (signal c audio stopped)) = started (host stopped)
  /\ started (host (signal c audio later))
     = started (host later) ++ firstn 1 (queue (mgr later)).
Proof.
  intros stopped.
  assert (Hsig : forall x : State,
             started (host (signal c audio x))
             = started (host x) ++ firstn 1 (queue (mgr x))).
  { intros x. unfold signal. now rewrite playNext_started. }
  do 4 (split; [ reflexivity | ]).
  split; [ | split ].
  - intros Hcur. unfold stopped, stop. rewrite Hcur. apply silence_absent.
  - rewrite Hsig. cbn. now rewrite app_nil_r.
  - apply Hsig.
Qed.

(** C6 fails on the code.  Element 0 is playing when [stop()] is called,
    and [stop()] does discard the queued blob 11.  With two blobs enqueued
    after the stop, the late [ended] of element 0 starts blob 13 while blob
    12 is still playing.  With one blob enqueued after the stop, the late
    signal finds the queue empty and marks the manager idle while blob 12
    is playing, so the next [add] starts blob 13 on top of it.  Either way
    two elements end up playing at once. *)
Lemma C6_stale_completion_starts_queued_item :
  let before := run init [Add 10; Add 11; Stop; Add 12; Add 13] in
  let after := step before (Signal Ended 0) in
  let before' := run init [Add 10; Add 11; Stop; Add 12] in
  let after' := step before' (Signal Ended 0) in
  currentAudio (mgr (run init [Add 10; Add 11])) = Some 0
  /\ queue (mgr (run init [Add 10; Add 11; Stop])) = []
  /\ started (host before) = [10; 12]
  /\ sounding (host before) = [1]
  /\ started (host after) = [10; 12; 13]
  /\ sounding (host after) = [1; 2]
  /\ started (host after) <> started (host before)
  /\ sounding (host after') = [1]
  /\ isPlaying (mgr after') = false
  /\ sounding (host (step after' (Add 13))) = [1; 2].
Proof. vm_compute. repeat split. discriminate. Qed.

End PlaybackFacts.

(** ** The cleanup registry *)

Module RegistryFacts.

Import Registry.

(** *** Sets *)

Lemma has_In (x : nat) (s : JSSet.t) : JSSet.has x s = true <-> In x s.
Proof.
  unfold JSSet.has. rewrite existsb_exists. split.
  - intros (y & Hy & E). apply Nat.eqb_eq in E. now subst.
  - intros H. exists x. split; [ exact H | apply Nat.eqb_refl ].
Qed.

Lemma delete_absent (x : nat) (s : JSSet.t) :
  JSSet.has x s = false -> JSSet.delete x s = s.
Proof.
  intros H. unfold JSSet.delete.
  induction s as [ | y s IH]; [ reflexivity | ].
  cbn in *. apply orb_false_elim in H. destruct H as (H1 & H2).
  rewrite Nat.eqb_sym in H1. rewrite H1. cbn. f_equal. now apply IH.
Qed.

Lemma has_delete (x : nat) (s : JSSet.t) :
  JSSet.has x (JSSet.delete x s) = false.
Proof.
  destruct (JSSet.has x (JSSet.delete x s)) eqn:E; [ | reflexivity ].
  apply has_In in E. unfold JSSet.delete in E. apply filter_In in E.
  destruct E as (_ & E). now rewrite Nat.eqb_refl in E.
Qed.

Lemma delete_twice (x : nat) (s : JSSet.t) :
  JSSet.delete x (JSSet.delete x s) = JSSet.delete x s.
Proof. apply delete_absent, has_delete. Qed.

Lemma delete_NoDup (x : nat) (s : JSSet.t) :
  NoDup s -> NoDup (JSSet.delete x s).
Proof. apply NoDup_filter. Qed.

Lemma delete_present (x : nat) (s : JSSet.t) :
  NoDup s -> JSSet.has x s = true ->
  S (length (JSSet.delete x s)) = length s.
Proof.
  unfold JSSet.delete. induction s as [ | y s IH]; intros Hnd Hin.
  - discriminate.
  - inversion Hnd as [ | ? ? Hy Hs]; subst. cbn in Hin |- *.
    destruct (Nat.eqb_spec x y) as [-> | Hne].
    + rewrite Nat.eqb_refl. cbn.
      fold (JSSet.delete y s). rewrite delete_absent; [ reflexivity | ].
      destruct (JSSet.has y s) eqn:E; [ | reflexivity ].
      apply has_In in E. contradiction.
    + destruct (Nat.eqb_spec y x) as [-> | _]; [ contradiction | ].
      cbn in *. f_equal. now apply IH.
Qed.

Lemma add_NoDup (x : nat) (s : JSSet.t) : NoDup s -> NoDup (JSSet.add x s).
Proof.
  intros H. unfold JSSet.add. destruct (JSSet.has x s) eqn:E; [ exact H | ].
  apply NoDup_app; [ exact H | repeat constructor; intros [] | ].
  intros y Hy [<- | []]. apply has_In in Hy. congruence.
Qed.

(** *** The browser record *)

Lemma withCalls_nil (h : Host) : withCalls [] (state h) h = h.
Proof. destruct h. unfold withCalls. cbn. now rewrite app_nil_r. Qed.

Lemma withCalls_twice (l1 l2 : list HostCall) st1 st2 (h : Host) :
  withCalls l2 st2 (withCalls l1 st1 h) = withCalls (l1 ++ l2) st2 h.
Proof. unfold withCalls. cbn. now rewrite app_assoc. Qed.

Lemma throws_withCalls l st (h : Host) : throws (withCalls l st h) = throws h.
Proof. reflexivity. Qed.

Lemma state_withCalls l st (h : Host) : state (withCalls l st h) = st.
Proof. reflexivity. Qed.

Lemma getTracks_withCalls l st (h : Host) :
  getTracks (withCalls l st h) = getTracks h.
Proof. reflexivity. Qed.

Lemma speechSynthesis_withCalls l st (h : Host) :
  speechSynthesis (withCalls l st h) = speechSynthesis h.
Proof. reflexivity. Qed.

Lemma calls_withCalls l st (h : Host) : calls (withCalls l st h) = calls h ++ l.
Proof. reflexivity. Qed.

Ltac browser :=
  cbn [host registry];
  rewrite ?throws_withCalls, ?state_withCalls, ?getTracks_withCalls,
    ?speechSynthesis_withCalls, ?withCalls_twice.

Lemma world_eta (w : World) : {| registry := registry w; host := host w |} = w.
Proof. now destruct w. Qed.

Lemma withFrames_id (r : ResourceCleanup) : withFrames (fun s => s) r = r.
Proof. now destruct r. Qed.

Lemma withStreams_id (r : ResourceCleanup) : withStreams (fun s => s) r = r.
Proof. now destruct r. Qed.

Lemma withContexts_id (r : ResourceCleanup) : withContexts (fun s => s) r = r.
Proof. now destruct r. Qed.

(** *** What each method does *)

Ltac run_method :=
  unfold try_catch, bind, get, invoke, updateRegistry, logInfo, logError, ret;
  cbn [fst snd registry host].

Lemma cleanupAnimationFrame_does (id : nat) (w : World) :
  cleanupAnimationFrame (Some id) w
  = (Normal tt,
     {| registry := if succeeds (OfAnimationFrame id) (host w)
                    then removed (OfAnimationFrame id) (registry w)
                    else registry w;
        host := withCalls [CancelAnimationFrame id] (state (host w)) (host w) |}).
Proof.
  unfold cleanupAnimationFrame, succeeds, removed. run_method.
  destruct (throws (host w) (CancelAnimationFrame id)); reflexivity.
Qed.

Lemma invoke_then_log (c : HostCall) (w : World) :
  (invoke c ;; logInfo)%js w = invoke c w.
Proof.
  unfold bind, logInfo, ret, invoke.
  destruct (throws (host w) c); reflexivity.
Qed.

Lemma stop_tracks_do (tracks : list MediaStreamTrack) :
  forall w : World,
    forEach tracks (fun track => invoke (TrackStop track) ;; logInfo)%js w
    = ((if forallb (fun track => negb (throws (host w) (TrackStop track))) tracks
        then Normal tt else Thrown),
       {| registry := registry w;
          host := withCalls (stopCalls (throws (host w)) tracks)
                    (state (host w)) (host w) |}).
Proof.
  induction tracks as [ | track rest IH]; intros w.
  - cbn. unfold ret. now rewrite withCalls_nil, world_eta.
  - cbn [forEach forallb stopCalls]. unfold bind at 1.
    rewrite invoke_then_log. unfold invoke.
    destruct (throws (host w) (TrackStop track)) eqn:E; cbn [negb andb].
    + reflexivity.
    + rewrite IH. cbn [effect]. browser. reflexivity.
Qed.

Lemma cleanupMediaStream_does (stream : MediaStream) (w : World) :
  cleanupMediaStream (Some stream) w
  = (Normal tt,
     {| registry := if succeeds (OfMediaStream stream) (host w)
                    then removed (OfMediaStream stream) (registry w)
                    else registry w;
        host := withCalls
                  (stopCalls (throws (host w)) (getTracks (host w) stream))
                  (state (host w)) (host w) |}).
Proof.
  unfold cleanupMediaStream, succeeds, removed.
  unfold try_catch, bind at 1, get. cbn [fst snd].
  unfold bind at 1. rewrite stop_tracks_do.
  destruct (forallb _ (getTracks (host w) stream)); reflexivity.
Qed.

Lemma cleanupAudioContext_does (context : AudioContext) (w : World) :
  cleanupAudioContext (Some context) w
  = (Normal tt,
     if isClosed (state (host w) context) then w
     else
       {| registry := if succeeds (OfAudioContext context) (host w)
                      then removed (OfAudioContext context) (registry w)
                      else registry w;
          host := withCalls [ContextClose context]
                    (if throws (host w) (ContextClose context)
                     then state (host w)
                     else effect (ContextClose context) (state (host w)))
                    (host w) |}).
Proof.
  unfold cleanupAudioContext, succeeds, removed. run_method.
  destruct (isClosed (state (host w) context)); cbn [negb andb].
  - reflexivity.
  - run_method.
    destruct (throws (host w) (ContextClose context)); reflexivity.
Qed.

Lemma release_does (x : Resource) (w : World) :
  fst (release x w) = Normal tt
  /\ registry (snd (release x w))
     = (if succeeds x (host w) then removed x (registry w) else registry w)
  /\ (succeeds x (host w) = false ->
      succeeds x (host (snd (release x w))) = false).
Proof.
  destruct x as [context | stream | id]; cbn [release].
  - rewrite cleanupAudioContext_does. cbn [fst snd].
    unfold succeeds.
    destruct (isClosed (state (host w) context)) eqn:C; cbn [negb andb].
    + repeat split. intros _. now rewrite C.
    + browser.
      destruct (throws (host w) (ContextClose context)) eqn:T; cbn [negb];
        repeat split; try discriminate.
      intros _. rewrite C. reflexivity.
  - rewrite cleanupMediaStream_does. cbn [fst snd registry host]. auto.
  - rewrite cleanupAnimationFrame_does. cbn [fst snd registry host]. auto.
Qed.

(** *** Releasing one resource *)

Ltac sets :=
  unfold removed, withContexts, withStreams, withFrames in *;
  cbn [activeAudioContexts activeMediaStreams activeAnimationFrames
       activeAudioNodes removed tracked withContexts withStreams withFrames
       countOf getResourceStats audioContexts mediaStreams animationFrames
       audioNodes wellFormed] in *.

Lemma removed_twice (x : Resource) (r : ResourceCleanup) :
  removed x (removed x r) = removed x r.
Proof. destruct x; destruct r; sets; f_equal; apply delete_twice. Qed.

Lemma removed_untracked (x : Resource) (r : ResourceCleanup) :
  tracked x r = false -> removed x r = r.
Proof.
  destruct x; destruct r; sets; intros H; f_equal; now apply delete_absent.
Qed.

Lemma tracked_removed (x : Resource) (r : ResourceCleanup) :
  tracked x (removed x r) = false.
Proof. destruct x; destruct r; sets; apply has_delete. Qed.

Lemma removed_wellFormed (x : Resource) (r : ResourceCleanup) :
  wellFormed r -> wellFormed (removed x r).
Proof.
  unfold wellFormed. intros (H1 & H2 & H3 & H4).
  destruct x; destruct r; sets; repeat split;
    try assumption; now apply delete_NoDup.
Qed.

Lemma removed_count (x : Resource) (r : ResourceCleanup) :
  wellFormed r ->
  tracked x r = true ->
  countOf x (getResourceStats (removed x r))
  = (countOf x (getResourceStats r) - 1)%Z.
Proof.
  unfold wellFormed. intros (H1 & H2 & H3 & H4) Ht.
  destruct x; destruct r; sets; unfold JSSet.size;
    match goal with
    | |- context [JSSet.delete ?y ?s] =>
        assert (E : S (length (JSSet.delete y s)) = length s)
          by (now apply delete_present)
    end; lia.
Qed.

Lemma stats_nonNegative (r : ResourceCleanup) : nonNegative (getResourceStats r).
Proof. unfold nonNegative, getResourceStats, JSSet.size. cbn. lia. Qed.

Lemma busy_wellFormed : wellFormed (registry busy).
Proof.
  vm_compute.
  repeat split; repeat (constructor; [ cbn; lia | ]); constructor.
Qed.

(** C9: releasing a resource never raises, neither the first time nor the
    second, whether the resource is tracked or not and whatever the
    browser calls do; the second release leaves every count as the first
    left it; the release of a resource that is not tracked leaves the
    registry as it was; a release lowers the count of its kind by one when
    the resource was tracked and the release went through, and by nothing
    otherwise; the counts are the sizes of duplicate-free sets, so they
    are never negative. *)
Theorem C9_release_twice_or_untracked (x : Resource) (w : World) :
  wellFormed (registry w) ->
  let w1 := snd (release x w) in
  let w2 := snd (release x w1) in
  let count := fun v : World => countOf x (getResourceStats (registry v)) in
  fst (release x w) = Normal tt
  /\ fst (release x w1) = Normal tt
  /\ getResourceStats (registry w2) = getResourceStats (registry w1)
  /\ (tracked x (registry w) = false -> registry w1 = registry w)
  /\ count w1
     = (count w
        - (if tracked x (registry w) && succeeds x (host w) then 1 else 0))%Z
  /\ count w2 = count w1
  /\ wellFormed (registry w1)
  /\ wellFormed (registry w2)
  /\ nonNegative (getResourceStats (registry w1))
  /\ nonNegative (getResourceStats (registry w2)).
Proof.
  intros Hwf w1 w2 count.
  destruct (release_does x w) as (N1 & R1 & S1).
  destruct (release_does x w1) as (N2 & R2 & S2).
  fold w1 in R1, S1. fold w2 in R2.
  assert (E21 : registry w2 = registry w1).
  { rewrite R2. destruct (succeeds x (host w1)) eqn:E1; [ | reflexivity ].
    destruct (succeeds x (host w)) eqn:E0.
    - rewrite R1. apply removed_twice.
    - discriminate (S1 eq_refl). }
  assert (W1 : wellFormed (registry w1)).
  { rewrite R1. destruct (succeeds x (host w)); [ | exact Hwf ].
    now apply removed_wellFormed. }
  split; [ exact N1 | ]. split; [ exact N2 | ].
  split; [ now rewrite E21 | ].
  split.
  { intros Hun. rewrite R1. destruct (succeeds x (host w)); [ | reflexivity ].
    now apply removed_untracked. }
  split.
  { unfold count. rewrite R1.
    destruct (succeeds x (host w)); rewrite ?andb_false_r, ?andb_true_r.
    - destruct (tracked x (registry w)) eqn:T.
      + now apply removed_count.
      + rewrite removed_untracked by assumption. lia.
    - lia. }
  split; [ unfold count; now rewrite E21 | ].
  split; [ exact W1 | ]. split; [ now rewrite E21 | ].
  split; apply stats_nonNegative.
Qed.

Lemma C9_witness :
  let x := OfMediaStream 2 in
  let w1 := snd (release x busy) in
  let w2 := snd (release x w1) in
  let count := fun v : World => countOf x (getResourceStats (registry v)) in
  fst (release x busy) = Normal tt
  /\ fst (release x w1) = Normal tt
  /\ getResourceStats (registry w2) = getResourceStats (registry w1)
  /\ (tracked x (registry busy) = false -> registry w1 = registry busy)
  /\ count w1
     = (count busy
        - (if tracked x (registry busy) && succeeds x (host busy)
           then 1 else 0))%Z
  /\ count w2 = count w1
  /\ wellFormed (registry w1)
  /\ wellFormed (registry w2)
  /\ nonNegative (getResourceStats (registry w1))
  /\ nonNegative (getResourceStats (registry w2)).
Proof.
  exact (C9_release_twice_or_untracked (OfMediaStream 2) busy busy_wellFormed).
Defined.

(** *** The phases of [cleanupAll] *)

Lemma bind_normal {A B} (m : M A) (k : A -> M B) (w w1 : World) (a : A) :
  m w = (Normal a, w1) -> bind m k w = k a w1.
Proof. intros H. unfold bind. now rewrite H. Qed.

Lemma frames_phase (ids : list nat) :
  forall w : World,
    exists f,
      forEach ids (fun id => cleanupAnimationFrame (Some id)) w
      = (Normal tt,
         {| registry := withFrames f (registry w);
            host := withCalls (map CancelAnimationFrame ids)
                      (state (host w)) (host w) |}).
Proof.
  induction ids as [ | id ids IH]; intros w.
  - exists (fun s => s). cbn. unfold ret.
    now rewrite withFrames_id, withCalls_nil, world_eta.
  - cbn [forEach map].
    rewrite (bind_normal _ _ _ _ _ (cleanupAnimationFrame_does id w)).
    match goal with
    | |- context [forEach ids _ ?w1] => destruct (IH w1) as (f & Hf)
    end.
    rewrite Hf. browser.
    exists (fun s => f (if succeeds (OfAnimationFrame id) (host w)
                        then JSSet.delete id s else s)).
    destruct (succeeds (OfAnimationFrame id) (host w));
      destruct (registry w); reflexivity.
Qed.

Lemma disconnect_does (node : AudioNode) (w : World) :
  try_catch (invoke (Disconnect node) ;; logInfo)%js logError w
  = (Normal tt,
     {| registry := registry w;
        host := withCalls [Disconnect node] (state (host w)) (host w) |}).
Proof.
  unfold try_catch. rewrite invoke_then_log. unfold invoke, logError, ret.
  destruct (throws (host w) (Disconnect node)); reflexivity.
Qed.

Lemma nodes_loop (nodes : list AudioNode) :
  forall w : World,
    forEach nodes (fun node =>
      try_catch (invoke (Disconnect node) ;; logInfo)%js logError) w
    = (Normal tt,
       {| registry := registry w;
          host := withCalls (map Disconnect nodes) (state (host w)) (host w) |}).
Proof.
  induction nodes as [ | node nodes IH]; intros w.
  - cbn. unfold ret. now rewrite withCalls_nil, world_eta.
  - cbn [forEach map].
    rewrite (bind_normal _ _ _ _ _ (disconnect_does node w)).
    rewrite IH. browser. reflexivity.
Qed.

Lemma cleanupAudioNodes_does (w : World) :
  cleanupAudioNodes w
  = (Normal tt,
     {| registry := withNodes JSSet.clear (registry w);
        host := withCalls (map Disconnect (activeAudioNodes (registry w)))
                  (state (host w)) (host w) |}).
Proof.
  unfold cleanupAudioNodes.
  rewrite (bind_normal (get _) _ w w _ eq_refl).
  rewrite (bind_normal _ _ _ _ _ (nodes_loop _ w)).
  reflexivity.
Qed.

Lemma streams_phase (streams : list MediaStream) :
  forall w : World,
    exists f,
      forEach streams (fun stream => cleanupMediaStream (Some stream)) w
      = (Normal tt,
         {| registry := withStreams f (registry w);
            host := withCalls
                      (flat_map (fun stream =>
                         stopCalls (throws (host w))
                           (getTracks (host w) stream)) streams)
                      (state (host w)) (host w) |}).
Proof.
  induction streams as [ | stream streams IH]; intros w.
  - exists (fun s => s). cbn. unfold ret.
    now rewrite withStreams_id, withCalls_nil, world_eta.
  - cbn [forEach flat_map].
    rewrite (bind_normal _ _ _ _ _ (cleanupMediaStream_does stream w)).
    match goal with
    | |- context [forEach streams _ ?w1] => destruct (IH w1) as (f & Hf)
    end.
    rewrite Hf. browser.
    exists (fun s => f (if succeeds (OfMediaStream stream) (host w)
                        then JSSet.delete stream s else s)).
    destruct (succeeds (OfMediaStream stream) (host w));
      destruct (registry w); reflexivity.
Qed.

Lemma cleanupSpeechSynthesis_does (w : World) :
  cleanupSpeechSynthesis w
  = (Normal tt,
     {| registry := registry w;
        host := withCalls
                  (if speechSynthesis (host w)
                   then [SpeechSynthesisCancel] else [])
                  (state (host w)) (host w) |}).
Proof.
  unfold cleanupSpeechSynthesis, try_catch.
  rewrite (bind_normal (get _) _ w w _ eq_refl).
  destruct (speechSynthesis (host w)).
  - rewrite invoke_then_log. unfold invoke, logError, ret.
    destruct (throws (host w) SpeechSynthesisCancel); reflexivity.
  - unfold ret. now rewrite withCalls_nil, world_eta.
Qed.

Lemma contexts_phase (contexts : list AudioContext) :
  forall w : World,
    NoDup contexts ->
    exists f st,
      forEach contexts (fun context => cleanupAudioContext (Some context)) w
      = (Normal tt,
         {| registry := withContexts f (registry w);
            host := withCalls
                      (map ContextClose
                         (filter (fun context =>
                            negb (isClosed (state (host w) context)))
                            contexts))
                      st (host w) |})
      /\ forall x, ~ In x contexts -> st x = state (host w) x.
Proof.
  induction contexts as [ | c contexts IH]; intros w Hnd.
  - exists (fun s => s), (state (host w)). split; [ | reflexivity ].
    cbn. unfold ret. now rewrite withContexts_id, withCalls_nil, world_eta.
  - inversion Hnd as [ | ? ? Hc Hrest]; subst.
    cbn [forEach filter].
    rewrite (bind_normal _ _ _ _ _ (cleanupAudioContext_does c w)).
    destruct (isClosed (state (host w) c)) eqn:C; cbn [negb].
    + destruct (IH w Hrest) as (f & st & Hf & Hst).
      exists f, st. split; [ exact Hf | ].
      intros x Hx. apply Hst. intros Hin. apply Hx. now right.
    + match goal with
      | |- context [forEach contexts _ ?w1] =>
          destruct (IH w1 Hrest) as (f & st & Hf & Hst)
      end.
      rewrite Hf. browser.
      assert (Hsame : forall y, y <> c ->
                (if throws (host w) (ContextClose c)
                 then state (host w)
                 else effect (ContextClose c) (state (host w))) y
                = state (host w) y).
      { intros y Hy. destruct (throws (host w) (ContextClose c));
          [ reflexivity | ].
        cbn [effect]. destruct (Nat.eqb_spec y c); [ contradiction | reflexivity ]. }
      exists (fun s => f (if succeeds (OfAudioContext c) (host w)
                          then JSSet.delete c s else s)), st.
      split.
      * cbn [map app]. f_equal. f_equal.
        -- destruct (succeeds (OfAudioContext c) (host w));
             destruct (registry w); reflexivity.
        -- f_equal. f_equal. f_equal. apply filter_ext_in.
           intros y Hy. rewrite Hsame; [ reflexivity | ].
           intros ->. contradiction.
      * intros x Hx. rewrite Hst.
        -- browser. apply Hsame. intros ->. apply Hx. now left.
        -- intros Hin. apply Hx. now right.
Qed.

Ltac tidy :=
  unfold withFrames, withNodes, withStreams, withContexts;
  cbn [host registry activeAudioContexts activeMediaStreams
       activeAnimationFrames activeAudioNodes];
  rewrite ?throws_withCalls, ?state_withCalls, ?getTracks_withCalls,
    ?speechSynthesis_withCalls, ?withCalls_twice.

(** The log of [cleanupAll], phase by phase. *)
Lemma cleanupAll_does (w : World) :
  NoDup (activeAudioContexts (registry w)) ->
  exists r st,
    cleanupAll w
    = (Normal tt,
       {| registry := r;
          host := withCalls
            (map CancelAnimationFrame (activeAnimationFrames (registry w))
             ++ map Disconnect (activeAudioNodes (registry w))
             ++ flat_map (fun stream =>
                  stopCalls (throws (host w)) (getTracks (host w) stream))
                  (activeMediaStreams (registry w))
             ++ (if speechSynthesis (host w)
                 then [SpeechSynthesisCancel] else [])
             ++ map ContextClose
                  (filter (fun context =>
                     negb (isClosed (state (host w) context)))
                     (activeAudioContexts (registry w))))
            st (host w) |}).
Proof.
  intros Hnd. unfold cleanupAll.
  rewrite (bind_normal logInfo _ w w tt eq_refl).
  rewrite (bind_normal (get _) _ w w _ eq_refl).
  destruct (frames_phase (activeAnimationFrames (registry w)) w) as (f1 & H1).
  rewrite (bind_normal _ _ _ _ _ H1).
  rewrite (bind_normal _ _ _ _ _ (cleanupAudioNodes_does _)). tidy.
  match goal with
  | |- context [bind (get ?g) _ ?w1] =>
      rewrite (bind_normal (get g) _ w1 w1 _ eq_refl)
  end. tidy.
  match goal with
  | |- context [bind (forEach ?ss _) _ ?w1] =>
      destruct (streams_phase ss w1) as (f2 & H2)
  end.
  rewrite (bind_normal _ _ _ _ _ H2).
  rewrite (bind_normal _ _ _ _ _ (cleanupSpeechSynthesis_does _)). tidy.
  match goal with
  | |- context [bind (get ?g) _ ?w1] =>
      rewrite (bind_normal (get g) _ w1 w1 _ eq_refl)
  end. tidy.
  match goal with
  | |- context [bind (forEach ?cs _) _ ?w1] =>
      destruct (contexts_phase cs w1) as (f3 & st & H3 & _)
  end.
  { exact Hnd. }
  rewrite (bind_normal _ _ _ _ _ H3).
  unfold logInfo, ret. tidy.
  eexists. exists st. rewrite <- !app_assoc. reflexivity.
Qed.

(** *** The order of the calls *)

Lemma ordered_same (made : list HostCall) (k : nat) :
  (forall a, In a made -> priority a = k) -> inPriorityOrder made.
Proof.
  intros Hk i j a b Ha Hb Hlt.
  apply nth_error_In in Ha. apply nth_error_In in Hb.
  rewrite (Hk a Ha), (Hk b Hb) in Hlt. lia.
Qed.

Lemma ordered_app (l1 l2 : list HostCall) (p : nat) :
  (forall a, In a l1 -> priority a <= p) ->
  (forall b, In b l2 -> p <= priority b) ->
  inPriorityOrder l1 ->
  inPriorityOrder l2 ->
  inPriorityOrder (l1 ++ l2).
Proof.
  intros H1 H2 O1 O2 i j a b Ha Hb Hlt.
  destruct (Nat.lt_ge_cases i (length l1)) as [Hi | Hi];
    destruct (Nat.lt_ge_cases j (length l1)) as [Hj | Hj].
  - rewrite nth_error_app1 in Ha, Hb by assumption.
    exact (O1 i j a b Ha Hb Hlt).
  - lia.
  - rewrite nth_error_app2 in Ha by assumption.
    rewrite nth_error_app1 in Hb by assumption.
    apply nth_error_In in Ha. apply nth_error_In in Hb.
    specialize (H1 b Hb). specialize (H2 a Ha). lia.
  - rewrite nth_error_app2 in Ha, Hb by assumption.
    pose proof (O2 _ _ a b Ha Hb Hlt). lia.
Qed.

Lemma stopCalls_priority (throwing : HostCall -> bool)
  (tracks : list MediaStreamTrack) (a : HostCall) :
  In a (stopCalls throwing tracks) -> priority a = 2.
Proof.
  induction tracks as [ | track rest IH]; cbn; [ intros [] | ].
  intros [<- | H]; [ reflexivity | ].
  destruct (throwing (TrackStop track)); [ destruct H | now apply IH ].
Qed.

(** C8: [cleanupAll] never raises and makes its browser calls in five
    blocks: a [cancelAnimationFrame] for every tracked frame handle, then
    a [disconnect] for every tracked node, then the [stop] calls on the
    tracks of every tracked stream, then the cancellation of speech
    synthesis, and last a [close] for every tracked context that is not
    closed already.  So every call of an earlier kind is made strictly
    before every call of a later kind. *)
Theorem C8_cleanupAll_releases_in_kind_order (w : World) :
  wellFormed (registry w) ->
  let r := registry w in
  let h := host w in
  let frames := map CancelAnimationFrame (activeAnimationFrames r) in
  let nodes := map Disconnect (activeAudioNodes r) in
  let streams :=
    flat_map (fun stream => stopCalls (throws h) (getTracks h stream))
             (activeMediaStreams r) in
  let synthesis :=
    if speechSynthesis h then [SpeechSynthesisCancel] else [] in
  let contexts :=
    map ContextClose
        (filter (fun context => negb (isClosed (state h context)))
                (activeAudioContexts r)) in
  fst (cleanupAll w) = Normal tt
  /\ callsOf cleanupAll w = frames ++ nodes ++ streams ++ synthesis ++ contexts
  /\ inPriorityOrder (callsOf cleanupAll w).
Proof.
  intros (Hnd & _) r h frames nodes streams synthesis contexts.
  destruct (cleanupAll_does w Hnd) as (r' & st & Hall).
  fold r h in Hall. fold frames nodes streams synthesis contexts in Hall.
  assert (Hcalls : callsOf cleanupAll w
                   = frames ++ nodes ++ streams ++ synthesis ++ contexts).
  { unfold callsOf. rewrite Hall. cbn [snd host]. rewrite calls_withCalls.
    fold h. rewrite skipn_app, skipn_all, Nat.sub_diag. reflexivity. }
  split; [ now rewrite Hall | ]. split; [ exact Hcalls | ].
  rewrite Hcalls.
  assert (P0 : forall a, In a frames -> priority a = 0).
  { intros a Ha. apply in_map_iff in Ha. now destruct Ha as (x & <- & _). }
  assert (P1 : forall a, In a nodes -> priority a = 1).
  { intros a Ha. apply in_map_iff in Ha. now destruct Ha as (x & <- & _). }
  assert (P2 : forall a, In a streams -> priority a = 2).
  { intros a Ha. apply in_flat_map in Ha. destruct Ha as (x & _ & Hx).
    now apply stopCalls_priority in Hx. }
  assert (P3 : forall a, In a synthesis -> priority a = 3).
  { intros a Ha. unfold synthesis in Ha.
    destruct (speechSynthesis h); [ | destruct Ha ].
    now destruct Ha as [<- | []]. }
  assert (P4 : forall a, In a contexts -> priority a = 4).
  { intros a Ha. apply in_map_iff in Ha. now destruct Ha as (x & <- & _). }
  apply (ordered_app _ _ 0).
  { intros a Ha. rewrite (P0 a Ha). lia. }
  { intros b Hb. lia. }
  { now apply (ordered_same _ 0). }
  apply (ordered_app _ _ 1).
  { intros a Ha. rewrite (P1 a Ha). lia. }
  { intros b Hb. repeat (apply in_app_or in Hb; destruct Hb as [Hb | Hb]).
    - rewrite (P2 b Hb). lia.
    - rewrite (P3 b Hb). lia.
    - rewrite (P4 b Hb). lia. }
  { now apply (ordered_same _ 1). }
  apply (ordered_app _ _ 2).
  { intros a Ha. rewrite (P2 a Ha). lia. }
  { intros b Hb. repeat (apply in_app_or in Hb; destruct Hb as [Hb | Hb]).
    - rewrite (P3 b Hb). lia.
    - rewrite (P4 b Hb). lia. }
  { now apply (ordered_same _ 2). }
  apply (ordered_app _ _ 3).
  { intros a Ha. rewrite (P3 a Ha). lia. }
  { intros b Hb. rewrite (P4 b Hb). lia. }
  { now apply (ordered_same _ 3). }
  now apply (ordered_same _ 4).
Qed.

Lemma C8_witness :
  fst (cleanupAll busy) = Normal tt
  /\ callsOf cleanupAll busy
     = [CancelAnimationFrame 5; CancelAnimationFrame 6]
       ++ [Disconnect 3; Disconnect 4]
       ++ [TrackStop 20; TrackStop 21]
       ++ [SpeechSynthesisCancel]
       ++ [ContextClose 1]
  /\ inPriorityOrder (callsOf cleanupAll busy).
Proof.
  exact (C8_cleanupAll_releases_in_kind_order busy busy_wellFormed).
Defined.

(** The same order when browser calls throw: the second track of stream 2
    is stopped up to the throwing call, context 8 is closed already and
    gets no call, and the throwing [close] of context 7 does not keep
    context 9 from being closed. *)
Example cleanupAll_in_a_faulty_browser :
  fst (cleanupAll faulty) = Normal tt
  /\ callsOf cleanupAll faulty
     = [CancelAnimationFrame 5; Disconnect 3; TrackStop 20; TrackStop 21;
        ContextClose 7; ContextClose 9]
  /\ getResourceStats (registry (snd (cleanupAll faulty)))
     = {| audioContexts := 2; mediaStreams := 1;
          animationFrames := 0; audioNodes := 0 |}.
Proof. vm_compute. repeat split. Qed.

End RegistryFacts.

(** ** More on the detector *)

Module VADMore.

Import JS VAD VADFacts Capture.

(** *** Windows *)

Lemma window_step {A} (n : nat) (l : list A) (x : A) :
  length l <= n ->
  (if (n <? length (push l x))%nat then shift (push l x) else push l x)
  = lastn n (l ++ [x]).
Proof.
  intros Hl. unfold push, shift, lastn. rewrite length_app. cbn [length].
  destruct (Nat.ltb_spec n (length l + 1)).
  - replace (length l + 1 - n)%nat with 1%nat by lia.
    destruct (l ++ [x]); reflexivity.
  - replace (length l + 1 - n)%nat with 0%nat by lia. reflexivity.
Qed.

Lemma lastn_length {A} (n : nat) (l : list A) : length (lastn n l) <= n.
Proof. unfold lastn. rewrite length_skipn. lia. Qed.

Lemma lastn_app_lastn {A} (n : nat) (l m : list A) :
  lastn n (lastn n l ++ m) = lastn n (l ++ m).
Proof.
  unfold lastn. set (k := (length l - n)%nat).
  replace (l ++ m) with (firstn k l ++ (skipn k l ++ m))
    by (now rewrite app_assoc, firstn_skipn).
  rewrite (skipn_app (length (firstn k l ++ skipn k l ++ m) - n)%nat).
  rewrite (skipn_all2 (firstn k l))
    by (rewrite !length_app, length_firstn, length_skipn; unfold k; lia).
  cbn [app]. f_equal.
  rewrite !length_app, length_firstn, length_skipn. unfold k. lia.
Qed.

Open Scope float_scope.

Lemma process_histories (s : t) (v : float) (smp : list float) :
  isCalibrated s = true ->
  energyHistory (fst (process s v smp))
  = (if (historySize <? length (push (energyHistory s) v))%nat
     then shift (push (energyHistory s) v) else push (energyHistory s) v)
  /\ zcrHistory (fst (process s v smp))
     = (if (historySize <? length (push (energyHistory s) v))%nat
        then shift (push (zcrHistory s) (zcr (locals s v smp)))
        else push (zcrHistory s) (zcr (locals s v smp))).
Proof.
  intros Hcal. unfold process. rewrite Hcal. cbn [negb].
  destruct (energySpeech (locals s v smp) && zcrSpeech (locals s v smp));
    fields; split; reflexivity.
Qed.

Lemma exec_histories (s : t) (c : Call) :
  length (energyHistory s) = length (zcrHistory s)
  /\ length (energyHistory s) <= historySize ->
  length (energyHistory (exec s c)) = length (zcrHistory (exec s c))
  /\ length (energyHistory (exec s c)) <= historySize.
Proof.
  intros (Heq & Hle). unfold historySize in *.
  destruct c as [v smp | v | ]; cbn [exec].
  - destruct (isCalibrated s) eqn:C.
    + destruct (process_histories s v smp C) as (He & Hz).
      rewrite He, Hz. unfold push, shift, historySize.
      rewrite length_app. cbn [length].
      destruct (Nat.ltb_spec 5 (length (energyHistory s) + 1)).
      * destruct (energyHistory s ++ [v]) eqn:E1;
          destruct (zcrHistory s ++ [zcr (locals s v smp)]) eqn:E2;
          apply (f_equal (@length float)) in E1;
          apply (f_equal (@length float)) in E2;
          rewrite length_app in E1, E2; cbn [length tl] in *; lia.
      * rewrite !length_app. cbn [length]. lia.
    + rewrite process_uncalibrated by assumption. cbn [fst].
      destruct (calibrate_keeps_detection s v) as (_ & _ & _ & _ & D5 & D6).
      rewrite D5, D6. auto.
  - destruct (calibrate_keeps_detection s v) as (_ & _ & _ & _ & D5 & D6).
    rewrite D5, D6. auto.
  - cbn. lia.
Qed.

(** X1: the two smoothing histories always have the same length, and never more
    than [historySize] = 5 entries, whatever calls were made. *)
Theorem histories_are_bounded (cs : list Call) :
  let s := session init cs in
  length (energyHistory s) = length (zcrHistory s)
  /\ length (energyHistory s) <= 5.
Proof.
  cbv zeta. unfold session.
  assert (G : forall cs s,
             length (energyHistory s) = length (zcrHistory s)
             /\ length (energyHistory s) <= historySize ->
             length (energyHistory (fold_left exec cs s))
             = length (zcrHistory (fold_left exec cs s))
             /\ length (energyHistory (fold_left exec cs s)) <= historySize).
  { induction cs0 as [ | c cs0 IH]; intros s Hs; [ exact Hs | ].
    cbn [fold_left]. apply IH. now apply exec_histories. }
  apply G. cbn. unfold historySize. lia.
Qed.

(** X2: the energy history is a sliding window: after a run of frames on a
    calibrated detector it holds the last five of the energies it held
    before followed by the energies of the run, oldest first. *)
Theorem energy_history_is_sliding_window (s : t) (frames : list Frame) :
  isCalibrated s = true ->
  length (energyHistory s) <= 5 ->
  energyHistory (fst (run s frames))
  = lastn 5 (energyHistory s ++ map volume frames).
Proof.
  revert s. induction frames as [ | f frames IH]; intros s Hcal Hlen.
  - cbn. rewrite app_nil_r. unfold lastn.
    replace (length (energyHistory s) - 5)%nat with 0%nat by lia. reflexivity.
  - rewrite run_cons. cbn [fst map]. unfold processFrame.
    destruct (process_calibrated_fields s (volume f) (samples f) Hcal)
      as (C1 & _).
    destruct (process_histories s (volume f) (samples f) Hcal) as (He & _).
    rewrite (window_step 5) in He by assumption.
    rewrite IH; [ | exact C1 | rewrite He; apply lastn_length ].
    rewrite He, lastn_app_lastn, <- app_assoc. reflexivity.
Qed.

Lemma energy_history_witness :
  energyHistory (fst (run calibrated (repeat loudFrame 3 ++ repeat quietFrame 4)))
  = lastn 5 (energyHistory calibrated
             ++ map volume (repeat loudFrame 3 ++ repeat quietFrame 4)).
Proof.
  apply (energy_history_is_sliding_window calibrated
           (repeat loudFrame 3 ++ repeat quietFrame 4)).
  - vm_compute. reflexivity.
  - vm_compute. lia.
Defined.

(** *** Counters and events *)

Lemma exec_counters (s : t) (c : Call) :
  (speechFrames s = 0 \/ silenceFrames s = 0)%nat
  /\ (isSpeaking s = false -> speechFrames s <= 2)%nat
  /\ (isSpeaking s = true -> silenceFrames s <= 8)%nat ->
  (speechFrames (exec s c) = 0 \/ silenceFrames (exec s c) = 0)%nat
  /\ (isSpeaking (exec s c) = false -> speechFrames (exec s c) <= 2)%nat
  /\ (isSpeaking (exec s c) = true -> silenceFrames (exec s c) <= 8)%nat.
Proof.
  intros (H1 & H2 & H3).
  split; [ | split; [ now apply exec_silence_counter | ] ].
  - destruct c as [v smp | v | ]; cbn [exec].
    + destruct (isCalibrated s) eqn:C.
      * change (process s v smp) with (processFrame s (mkFrame v smp)).
        destruct (speechLike s (mkFrame v smp)) eqn:L.
        -- destruct (process_speechLike s _ C L) as (_ & _ & _ & P4 & _).
           now right.
        -- destruct (process_notSpeechLike s _ C L) as (_ & _ & _ & P4 & _).
           now left.
      * rewrite process_uncalibrated by assumption. cbn [fst].
        destruct (calibrate_keeps_detection s v) as (_ & D2 & D3 & _).
        now rewrite D2, D3.
    + destruct (calibrate_keeps_detection s v) as (_ & D2 & D3 & _).
      now rewrite D2, D3.
    + cbn. now left.
  - destruct c as [v smp | v | ]; cbn [exec].
    + destruct (isCalibrated s) eqn:C.
      * change (process s v smp) with (processFrame s (mkFrame v smp)).
        destruct (speechLike s (mkFrame v smp)) eqn:L.
        -- destruct (process_speechLike s _ C L) as (_ & _ & _ & P4 & _).
           rewrite P4. lia.
        -- destruct (process_notSpeechLike s _ C L) as (_ & P2 & P3 & _).
           rewrite P2, P3.
           destruct (isSpeaking s); cbn [andb]; [ | discriminate ].
           destruct (Nat.ltb_spec 8 (S (silenceFrames s))); [ discriminate | lia ].
      * rewrite process_uncalibrated by assumption. cbn [fst].
        destruct (calibrate_keeps_detection s v) as (D1 & _ & D3 & _).
        now rewrite D1, D3.
    + destruct (calibrate_keeps_detection s v) as (D1 & _ & D3 & _).
      now rewrite D1, D3.
    + cbn. discriminate.
Qed.

(** X3: in every state a session reaches, at most one of the two frame counters
    is above 0, the Silence state has counted at most 2 speech-like frames
    and the Speech state at most 8 frames that are not speech-like. *)
Theorem counters_are_bounded (cs : list Call) :
  let s := session init cs in
  (speechFrames s = 0 \/ silenceFrames s = 0)%nat
  /\ (isSpeaking s = false -> speechFrames s <= 2)%nat
  /\ (isSpeaking s = true -> silenceFrames s <= 8)%nat.
Proof.
  cbv zeta. unfold session.
  assert (G : forall cs s,
    ((speechFrames s = 0 \/ silenceFrames s = 0)%nat
     /\ (isSpeaking s = false -> speechFrames s <= 2)%nat
     /\ (isSpeaking s = true -> silenceFrames s <= 8)%nat) ->
    ((speechFrames (fold_left exec cs s) = 0
      \/ silenceFrames (fold_left exec cs s) = 0)%nat
     /\ (isSpeaking (fold_left exec cs s) = false ->
         speechFrames (fold_left exec cs s) <= 2)%nat
     /\ (isSpeaking (fold_left exec cs s) = true ->
         silenceFrames (fold_left exec cs s) <= 8)%nat)).
  { induction cs0 as [ | c cs0 IH]; intros s Hs; [ exact Hs | ].
    cbn [fold_left]. apply IH. now apply exec_counters. }
  apply G. cbn. intuition lia.
Qed.

Lemma frame_events (s : t) (f : Frame) :
  let r := processFrame s f in
  (speechStarts (snd r) + Nat.b2n (isSpeaking s)
   = speechEnds (snd r) + Nat.b2n (isSpeaking (fst r)))%nat
  /\ (speechStarts (snd r) + speechEnds (snd r) <= 1)%nat.
Proof.
  cbv zeta. destruct (isCalibrated s) eqn:C.
  - destruct (speechLike s f) eqn:L.
    + destruct (process_speechLike s f C L) as (_ & P2 & _ & _ & P5 & P6).
      rewrite P2, P5, P6.
      destruct (isSpeaking s); cbn [negb andb Nat.b2n]; [ lia | ].
      destruct (2 <? S (speechFrames s))%nat; cbn; lia.
    + destruct (process_notSpeechLike s f C L) as (_ & P2 & _ & _ & P5 & P6).
      rewrite P2, P5, P6.
      destruct (isSpeaking s); cbn [negb andb Nat.b2n]; [ | lia ].
      destruct (8 <? S (silenceFrames s))%nat; cbn; lia.
  - unfold processFrame. rewrite process_uncalibrated by assumption.
    cbn [fst snd]. destruct (calibrate_keeps_detection s (volume f)) as (D1 & _).
    rewrite D1. cbn. lia.
Qed.

(** X4: speech boundaries are balanced: over any run of frames from any state,
    the [onSpeechStart] calls plus one if speech was active at the start
    equal the [onSpeechEnd] calls plus one if speech is active at the end,
    and no frame makes more than one boundary call. *)
Theorem speech_boundaries_balance (s : t) (frames : list Frame) :
  let evs := snd (run s frames) in
  (list_sum (map speechStarts evs) + Nat.b2n (isSpeaking s)
   = list_sum (map speechEnds evs) + Nat.b2n (isSpeaking (fst (run s frames))))%nat
  /\ Forall (fun e => speechStarts e + speechEnds e <= 1)%nat evs.
Proof.
  cbv zeta. revert s. induction frames as [ | f frames IH]; intros s.
  - cbn. split; [ lia | constructor ].
  - rewrite run_cons. cbn [fst snd map].
    destruct (frame_events s f) as (F1 & F2).
    destruct (IH (fst (processFrame s f))) as (I1 & I2).
    unfold list_sum in *. cbn [fold_right].
    split; [ lia | now constructor ].
Qed.

(** *** Not-a-number energies *)

Lemma nan_add_l (y : float) : nan + y = nan.
Proof. rewrite <- (SF2Prim_Prim2SF (nan + y)), add_spec. reflexivity. Qed.

Lemma nan_add_r (x : float) : x + nan = nan.
Proof.
  rewrite <- (SF2Prim_Prim2SF (x + nan)), add_spec.
  change (Prim2SF nan) with S754_nan.
  destruct (Prim2SF x); reflexivity.
Qed.

Lemma nan_div_l (y : float) : nan / y = nan.
Proof. rewrite <- (SF2Prim_Prim2SF (nan / y)), div_spec. reflexivity. Qed.

Lemma nan_mul_l (y : float) : nan * y = nan.
Proof. rewrite <- (SF2Prim_Prim2SF (nan * y)), mul_spec. reflexivity. Qed.

Lemma nan_ltb_l (y : float) : (nan <? y) = false.
Proof. rewrite ltb_spec. reflexivity. Qed.

Lemma sum_from_nan (vs : list float) :
  fold_left (fun a b => a + b) vs nan = nan.
Proof. induction vs as [ | v vs IH]; cbn; [ | rewrite nan_add_l ]; auto. Qed.

Lemma sum_with_nan (vs : list float) :
  In nan vs -> reduce_add vs = nan.
Proof.
  intros Hin. apply in_split in Hin. destruct Hin as (l1 & l2 & ->).
  unfold reduce_add. rewrite fold_left_app. cbn [fold_left].
  rewrite nan_add_r. apply sum_from_nan.
Qed.

Lemma nan_threshold_never_speechLike (frames : list Frame) :
  forall s : t,
    isCalibrated s = true ->
    energyThreshold s = nan ->
    allClassified false s frames = true.
Proof.
  induction frames as [ | f frames IH]; intros s Hcal Hthr; [ reflexivity | ].
  assert (L : speechLike s f = false).
  { unfold speechLike, locals. cbn [energySpeech zcrSpeech].
    rewrite Hthr. unfold gt. now rewrite nan_ltb_l. }
  cbn [allClassified]. rewrite L. cbn [Bool.eqb andb].
  unfold processFrame.
  destruct (process_calibrated_fields s (volume f) (samples f) Hcal)
    as (C1 & _ & _ & C4).
  apply IH; [ exact C1 | now rewrite C4 ].
Qed.

(** X5: a NaN energy among the first 30 submitted values is not absorbed: the
    calibration ends with [backgroundNoise] and [energyThreshold] both NaN,
    and from then on no frame is classified speech-like, so [onSpeechStart]
    is never called again, whatever the frames are. *)
Theorem nan_in_calibration_disables_detection
  (cs : list Call) (frames : list Frame) :
  isCalibrated (session init cs) = true ->
  In nan (firstn 30 (submitted cs)) ->
  let s := session init cs in
  backgroundNoise s = nan
  /\ energyThreshold s = nan
  /\ allClassified false s frames = true
  /\ map speechStarts (snd (run s frames)) = repeat 0%nat (length frames).
Proof.
  intros Hcal Hnan s.
  destruct (session_calibration cs init [] init_calibration)
    as (Hs & _ & Hv & _).
  fold s in Hs, Hv, Hcal. cbn [app] in Hs.
  destruct (Hv Hcal) as (Hbn & Hthr).
  assert (B : backgroundNoise s = nan).
  { rewrite Hbn, Hs. unfold mean, calibrationTarget.
    rewrite (sum_with_nan _ Hnan). apply nan_div_l. }
  assert (T : energyThreshold s = nan).
  { rewrite Hthr, B. apply nan_mul_l. }
  pose proof (nan_threshold_never_speechLike frames s Hcal T) as A.
  split; [ exact B | ]. split; [ exact T | ]. split; [ exact A | ].
  now destruct (run_notSpeechLike frames s Hcal A) as (_ & R2 & _).
Qed.

Lemma nan_in_calibration_witness :
  let cs := Process nan [] :: quietSession in
  let s := session init cs in
  backgroundNoise s = nan
  /\ energyThreshold s = nan
  /\ allClassified false s (repeat loudFrame 6) = true
  /\ map speechStarts (snd (run s (repeat loudFrame 6))) = repeat 0%nat 6.
Proof.
  apply (nan_in_calibration_disables_detection
           (Process nan [] :: quietSession) (repeat loudFrame 6)).
  - vm_compute. reflexivity.
  - left. reflexivity.
Defined.

(** *** The zero-crossing count *)

Lemma signChanges_bound (l : list float) : signChanges l <= length l - 1.
Proof.
  induction l as [ | x l IH]; [ cbn; lia | ].
  destruct l as [ | y l]; [ cbn; lia | ].
  change (signChanges (x :: y :: l))
    with ((if (y * x <? 0)%float then 1 else 0) + signChanges (y :: l))%nat.
  cbn [length] in *. destruct (y * x <? 0); lia.
Qed.

(** X6: the loop of [calculateZCR] counts at most [length - 1] crossings, so on
    a frame that is not empty the count is below the frame length; a frame
    of a single sample has rate 0. *)
Theorem zero_crossings_below_length (x : float) (rest : list float) :
  zcr_loop (x :: rest) <= length rest
  /\ zcr_loop (x :: rest) < length (x :: rest)
  /\ calculateZCR [x] = 0.
Proof.
  rewrite zcr_loop_counts.
  pose proof (signChanges_bound (x :: rest)) as H. cbn [length] in *.
  split; [ lia | split; [ lia | reflexivity ] ].
Qed.

(** *** The capture loop *)

Lemma silent_loop (dataArray : list nat) (n : nat) :
  forall from : nat,
    (forall i, from <= i < from + n -> nth i dataArray 0%nat = 128%nat) ->
    for_loop n from
      (fun i sum =>
         let normalized := (of_nat (nth i dataArray 0%nat) - 128) / 128 in
         sum + normalized * normalized)
      0
    = 0.
Proof.
  induction n as [ | n IH]; intros from H; [ reflexivity | ].
  cbn [for_loop]. rewrite (H from) by lia.
  change (0 + (of_nat 128 - 128) / 128 * ((of_nat 128 - 128) / 128)) with 0.
  apply IH. intros i Hi. apply H. lia.
Qed.

Lemma zero_over_length (n : nat) :
  1 <= n <= 512 -> 0 / of_nat n = 0.
Proof.
  intros Hn.
  assert (A : forallb (fun k => PrimFloat.Leibniz.eqb (0 / of_nat k) 0)
                      (seq 1 512) = true) by (vm_compute; reflexivity).
  rewrite forallb_forall in A.
  apply FloatAxioms.Leibniz.eqb_spec. apply A. apply in_seq. lia.
Qed.

(** X7: digital silence has energy exactly 0: if the bytes that [monitorAudio]
    reads (the first 512 at most) are all 128, the energy it hands to the
    detector is 0, not a small positive number.  A session that opens with
    31 such frames therefore calibrates with threshold 0.  On an empty
    buffer the energy is NaN. *)
Theorem silence_has_zero_energy (dataArray : list nat) (smp : list float) :
  dataArray <> [] ->
  (forall i, i < Nat.min (length dataArray) 512 ->
             nth i dataArray 0%nat = 128%nat) ->
  rms dataArray = 0
  /\ energyThreshold
       (fst (run init (repeat (mkFrame (rms dataArray) smp) 31))) = 0
  /\ rms [] = nan.
Proof.
  intros Hne Hall.
  assert (R : rms dataArray = 0).
  { unfold rms. rewrite silent_loop by (intros i Hi; apply Hall; lia).
    rewrite zero_over_length; [ reflexivity | ].
    destruct dataArray; [ contradiction | cbn [length]; lia ]. }
  split; [ exact R | ]. split; [ | reflexivity ].
  rewrite R. vm_compute. reflexivity.
Qed.

Lemma silence_has_zero_energy_witness :
  rms silentBuffer = 0
  /\ energyThreshold
       (fst (run init (repeat (mkFrame (rms silentBuffer) [0.5; -0.5]) 31))) = 0
  /\ rms [] = nan.
Proof.
  apply (silence_has_zero_energy silentBuffer [0.5; -0.5]).
  - discriminate.
  - intros i Hi. unfold silentBuffer.
    rewrite nth_repeat_lt; [ reflexivity | ].
    unfold silentBuffer in Hi. rewrite repeat_length in Hi. lia.
Defined.

End VADMore.

(** ** More on the playback queue *)

Module PlaybackMoreFacts.

Import Playback PlaybackFacts PlaybackMore.

#[local] Arguments silence : simpl never.

Lemma playNext_unstranded (st : State) :
  isPlaying (mgr (playNext st)) = true \/ queue (mgr (playNext st)) = [].
Proof. unfold playNext. destruct (queue (mgr st)); cbn; auto. Qed.

Lemma step_unstranded (st : State) (op : Op) :
  isPlaying (mgr st) = true \/ queue (mgr st) = [] ->
  isPlaying (mgr (step st op)) = true \/ queue (mgr (step st op)) = [].
Proof.
  intros H. destruct op as [b | | | c a]; cbn [step].
  - unfold add. cbn [isPlaying mgr].
    destruct (isPlaying (mgr st)) eqn:P; cbn [negb].
    + left. reflexivity.
    + apply playNext_unstranded.
  - right. reflexivity.
  - right. reflexivity.
  - apply playNext_unstranded.
Qed.

(** X8: no item is ever left waiting while the manager is idle: after any
    sequence of [add], [stop], [clear] and completion signals, for current
    elements or not, the manager is playing or its queue is empty. *)
Theorem no_item_waits_while_idle (ops : list Op) :
  let st := run init ops in
  isPlaying (mgr st) = true \/ queue (mgr st) = [].
Proof.
  cbv zeta. unfold run.
  assert (G : forall ops st,
             isPlaying (mgr st) = true \/ queue (mgr st) = [] ->
             isPlaying (mgr (fold_left step ops st)) = true
             \/ queue (mgr (fold_left step ops st)) = []).
  { induction ops0 as [ | op ops0 IH]; intros st H; [ exact H | ].
    cbn [fold_left]. apply IH. now apply step_unstranded. }
  apply G. right. reflexivity.
Qed.

Lemma step_fifo (st : State) (op : Op) (adds : list Blob) :
  isStop op = false ->
  started (host st) ++ queue (mgr st) = adds ->
  started (host (step st op)) ++ queue (mgr (step st op))
  = adds ++ enqueued [op].
Proof.
  intros Hop HF. destruct st as [[q p cur] [stt snd]]. cbn in HF. subst adds.
  destruct op as [b | | | c a]; try discriminate; cbn [step].
  - unfold add, playNext. cbn. destruct p; cbn.
    + now rewrite app_assoc.
    + destruct q; cbn; now rewrite ?app_nil_r, <- ?app_assoc.
  - unfold signal, playNext. cbn.
    destruct q; cbn; now rewrite ?app_nil_r, <- ?app_assoc.
Qed.

(** X9: playback begins in enqueue order whatever completion signals arrive:
    as long as [stop()] and [clear()] are not called, the blobs started so
    far followed by the queue are the blobs handed to [add], in call order,
    also when a signal is stale or an element completes twice. *)
Theorem fifo_under_any_completions (ops : list Op) :
  neverStopped ops = true ->
  let st := run init ops in
  started (host st) ++ queue (mgr st) = enqueued ops.
Proof.
  intros Hns. cbv zeta. unfold run.
  assert (G : forall ops st adds,
             neverStopped ops = true ->
             started (host st) ++ queue (mgr st) = adds ->
             started (host (fold_left step ops st))
             ++ queue (mgr (fold_left step ops st))
             = adds ++ enqueued ops).
  { induction ops0 as [ | op ops0 IH]; intros st adds Hn HF.
    - cbn. now rewrite app_nil_r.
    - cbn [neverStopped forallb] in Hn. apply andb_prop in Hn.
      destruct Hn as (H1 & H2). apply negb_true_iff in H1.
      cbn [fold_left]. rewrite enqueued_cons, app_assoc.
      apply IH; [ exact H2 | now apply step_fifo ]. }
  now apply (G ops init []).
Qed.

Lemma fifo_under_any_completions_witness :
  let ops := [Add 10; Add 11; Add 12; Signal Errored 0;
              Signal PlayRejected 0; Signal Ended 7] in
  started (host (run init ops)) ++ queue (mgr (run init ops)) = enqueued ops.
Proof.
  apply (fifo_under_any_completions
           [Add 10; Add 11; Add 12; Signal Errored 0;
            Signal PlayRejected 0; Signal Ended 7]).
  reflexivity.
Defined.

Lemma completions_cons (kind : nat -> Completion) (from n : nat) :
  completions kind from (S n)
  = Signal (kind from) from :: completions kind (S from) n.
Proof. reflexivity. Qed.

Lemma drain_from (q : list Blob) :
  forall (kind : nat -> Completion) (a : Audio) (begun : list Blob),
    S a = length begun ->
    run {| mgr := {| queue := q; isPlaying := true; currentAudio := Some a |};
           host := {| started := begun; sounding := [a] |} |}
        (completions kind a (S (length q)))
    = {| mgr := {| queue := []; isPlaying := false;
                   currentAudio := Some (a + length q) |};
         host := {| started := begun ++ q; sounding := [] |} |}.
Proof.
  induction q as [ | b q IH]; intros kind a begun Ha.
  - cbn [length]. rewrite completions_cons. cbn [completions seq map].
    unfold run. cbn [fold_left step]. unfold signal. cbn [host mgr sounding].
    rewrite silence_current. unfold playNext. cbn.
    now rewrite app_nil_r, Nat.add_0_r.
  - cbn [length]. rewrite completions_cons.
    unfold run. cbn [fold_left step]. fold (run
      (signal (kind a) a
         {| mgr := {| queue := b :: q; isPlaying := true;
                      currentAudio := Some a |};
            host := {| started := begun; sounding := [a] |} |})
      (completions kind (S a) (S (length q)))).
    unfold signal. cbn [host mgr sounding started].
    rewrite silence_current. unfold playNext. cbn [queue mgr host started sounding app].
    rewrite <- Ha. rewrite IH by (rewrite length_app; cbn; lia).
    rewrite <- app_assoc. cbn [app]. do 3 f_equal. lia.
Qed.

(** X10: the queue always drains: when [n] blobs are added to an idle manager
    and each element that plays then completes in turn, in whatever way
    (ended, error or rejected play), all [n] blobs have been started, in
    the order they were added, nothing is playing or queued any more and
    the manager is idle. *)
Theorem queue_drains (bs : list Blob) (kind : nat -> Completion) :
  let st := run init (map Add bs ++ completions kind 0 (length bs)) in
  started (host st) = bs
  /\ queue (mgr st) = []
  /\ sounding (host st) = []
  /\ isPlaying (mgr st) = false.
Proof.
  cbv zeta. unfold run at 1 2 3 4. rewrite fold_left_app.
  destruct bs as [ | b bs]; [ cbn; auto | ].
  cbn [map fold_left step length].
  assert (A : forall (rest : list Blob) (q : list Blob),
             fold_left step (map Add rest)
               {| mgr := {| queue := q; isPlaying := true;
                            currentAudio := Some 0 |};
                  host := {| started := [b]; sounding := [0] |} |}
             = {| mgr := {| queue := q ++ rest; isPlaying := true;
                            currentAudio := Some 0 |};
                  host := {| started := [b]; sounding := [0] |} |}).
  { induction rest as [ | x rest IH]; intros q.
    - cbn. now rewrite app_nil_r.
    - cbn [map fold_left step]. unfold add. cbn [isPlaying mgr negb queue host].
      rewrite IH. now rewrite <- app_assoc. }
  change (add b init)
    with {| mgr := {| queue := []; isPlaying := true; currentAudio := Some 0 |};
            host := {| started := [b]; sounding := [0] |} |}.
  rewrite A. cbn [app].
  fold (run {| mgr := {| queue := bs; isPlaying := true; currentAudio := Some 0 |};
               host := {| started := [b]; sounding := [0] |} |}
            (completions kind 0 (S (length bs)))).
  rewrite drain_from by reflexivity. cbn. auto.
Qed.

(** X11: interrupting and speaking again: after a regular run, [stop()] leaves
    nothing playing and nothing queued, and the next [add] starts its blob
    at once, as the only element playing. *)
Theorem stop_then_add_restarts (ops : list Op) (b : Blob) :
  regular init ops = true ->
  let before := run init ops in
  let st := add b (stop before) in
  sounding (host (stop before)) = []
  /\ queue (mgr (stop before)) = []
  /\ started (host st) = started (host before) ++ [b]
  /\ sounding (host st) = [length (started (host before))]
  /\ queue (mgr st) = []
  /\ isPlaying (mgr st) = true.
Proof.
  intros Hreg before st.
  destruct (run_regular ops init []) as (HC & _); try assumption.
  { cbn. auto. }
  { reflexivity. }
  fold before in HC.
  assert (S0 : sounding (host (stop before)) = []).
  { unfold stop. cbn [host sounding]. unfold consistent in HC.
    destruct (isPlaying (mgr before)).
    - destruct HC as (a & Ha & Hs & _). rewrite Ha, Hs. apply silence_current.
    - destruct HC as (_ & Hs). rewrite Hs.
      destruct (currentAudio (mgr before)); reflexivity. }
  split; [ exact S0 | ]. split; [ reflexivity | ].
  unfold st, add. cbn [isPlaying mgr stop negb]. unfold playNext.
  cbn [queue mgr host started app].
  fold (stop before). cbn [stop host sounding started] in S0 |- *.
  rewrite S0. cbn. auto.
Qed.

Lemma stop_then_add_restarts_witness :
  let before := run init [Add 10; Add 11; Signal Ended 0; Add 12] in
  let st := add 13 (stop before) in
  sounding (host (stop before)) = []
  /\ queue (mgr (stop before)) = []
  /\ started (host st) = started (host before) ++ [13]
  /\ sounding (host st) = [length (started (host before))]
  /\ queue (mgr st) = []
  /\ isPlaying (mgr st) = true.
Proof.
  apply (stop_then_add_restarts [Add 10; Add 11; Signal Ended 0; Add 12] 13).
  reflexivity.
Defined.

End PlaybackMoreFacts.

(** ** More on the registry *)

Module RegistryMoreFacts.

Import Registry RegistryFacts RegistryMore.

Ltac regs :=
  unfold removed, withContexts, withStreams, withFrames, withNodes in *;
  cbn [activeAudioContexts activeMediaStreams activeAnimationFrames
       activeAudioNodes tracked countOf getResourceStats audioContexts
       mediaStreams animationFrames audioNodes wellFormed registry host
       fst snd] in *.

(** *** Tracking *)

Lemma add_present (x : nat) (s : JSSet.t) :
  JSSet.has x s = true -> JSSet.add x s = s.
Proof. intros H. unfold JSSet.add. now rewrite H. Qed.

Lemma has_add (x : nat) (s : JSSet.t) : JSSet.has x (JSSet.add x s) = true.
Proof.
  unfold JSSet.add. destruct (JSSet.has x s) eqn:E; [ exact E | ].
  apply has_In. apply in_or_app. right. now left.
Qed.

Lemma add_length (x : nat) (s : JSSet.t) :
  length (JSSet.add x s) = length s + (if JSSet.has x s then 0 else 1).
Proof.
  unfold JSSet.add. destruct (JSSet.has x s); [ lia | ].
  now rewrite length_app.
Qed.

Lemma delete_add (x : nat) (s : JSSet.t) :
  JSSet.has x s = false -> JSSet.delete x (JSSet.add x s) = s.
Proof.
  intros H. unfold JSSet.add. rewrite H. unfold JSSet.delete.
  rewrite filter_app. cbn [filter]. rewrite Nat.eqb_refl. cbn [negb].
  rewrite app_nil_r. now apply delete_absent.
Qed.

Lemma track_does (x : Resource) (w : World) :
  track x w
  = (Normal tt,
     {| registry :=
          match x with
          | OfAudioContext c => withContexts (JSSet.add c) (registry w)
          | OfMediaStream s => withStreams (JSSet.add s) (registry w)
          | OfAnimationFrame i => withFrames (JSSet.add i) (registry w)
          end;
        host := host w |}).
Proof. destruct x; reflexivity. Qed.

(** X12: tracking never raises and makes no browser call; tracking a resource
    twice is the same as tracking it once; afterwards the resource is
    tracked, the sets are still duplicate-free, and the count of its kind
    has gone up by one exactly when it was not tracked before. *)
Theorem track_is_idempotent (x : Resource) (w : World) :
  wellFormed (registry w) ->
  let w1 := snd (track x w) in
  let count := fun v : World => countOf x (getResourceStats (registry v)) in
  fst (track x w) = Normal tt
  /\ host w1 = host w
  /\ snd (track x w1) = w1
  /\ tracked x (registry w1) = true
  /\ wellFormed (registry w1)
  /\ count w1 = (count w + (if tracked x (registry w) then 0 else 1))%Z.
Proof.
  intros (H1 & H2 & H3 & H4) w1 count. unfold w1, count.
  repeat (rewrite track_does; cbn [fst snd]).
  destruct w as [r h]. destruct r as [cs ss fs ns].
  destruct x as [c | s | i]; regs; unfold JSSet.size;
    (split; [ reflexivity | ]); (split; [ reflexivity | ]);
    (split; [ now rewrite add_present by apply has_add | ]);
    (split; [ apply has_add | ]);
    (split; [ repeat split; try assumption; now apply add_NoDup | ]);
    rewrite add_length;
    match goal with |- context [JSSet.has ?y ?l] => destruct (JSSet.has y l) end;
    lia.
Qed.

Lemma track_is_idempotent_witness :
  let x := OfAnimationFrame 9 in
  let w1 := snd (track x busy) in
  let count := fun v : World => countOf x (getResourceStats (registry v)) in
  fst (track x busy) = Normal tt
  /\ host w1 = host busy
  /\ snd (track x w1) = w1
  /\ tracked x (registry w1) = true
  /\ wellFormed (registry w1)
  /\ count w1 = (count busy + (if tracked x (registry busy) then 0 else 1))%Z.
Proof.
  exact (track_is_idempotent (OfAnimationFrame 9) busy busy_wellFormed).
Defined.

(** X13: tracking a resource that was not tracked and then releasing it, when
    the release goes through, restores the registry exactly. *)
Theorem track_then_release_restores (x : Resource) (w : World) :
  tracked x (registry w) = false ->
  succeeds x (host w) = true ->
  registry (snd (release x (snd (track x w)))) = registry w.
Proof.
  intros Hun Hok.
  destruct (release_does x (snd (track x w))) as (_ & R & _).
  rewrite R. rewrite track_does. cbn [snd host]. rewrite Hok.
  destruct w as [r h]. destruct r as [cs ss fs ns].
  destruct x as [c | s | i]; regs; f_equal; now apply delete_add.
Qed.

Lemma track_then_release_restores_witness :
  registry (snd (release (OfMediaStream 8) (snd (track (OfMediaStream 8) busy))))
  = registry busy.
Proof.
  apply (track_then_release_restores (OfMediaStream 8) busy); reflexivity.
Defined.

(** *** What [cleanupAll] leaves behind *)

Lemma filter_delete (P : nat -> bool) (x : nat) (s : JSSet.t) :
  filter P (JSSet.delete x s) = filter (fun y => negb (y =? x) && P y) s.
Proof.
  unfold JSSet.delete. induction s as [ | y s IH]; [ reflexivity | ].
  cbn [filter]. destruct (y =? x); cbn [negb andb filter].
  - exact IH.
  - destruct (P y); now rewrite IH.
Qed.

(** Deleting along a list of candidates keeps what no successful candidate
    names. *)
Lemma fold_delete (ok : nat -> bool) (ids : list nat) :
  forall s : JSSet.t,
    fold_left (fun s id => if ok id then JSSet.delete id s else s) ids s
    = filter (fun y => negb (existsb (fun id => (y =? id) && ok id) ids)) s.
Proof.
  induction ids as [ | id ids IH]; intros s.
  - cbn. symmetry. apply forallb_filter_id. now apply forallb_forall.
  - cbn [fold_left existsb]. rewrite IH. destruct (ok id) eqn:E.
    + rewrite filter_delete. apply filter_ext. intros y.
      rewrite andb_true_r. now rewrite negb_orb.
    + apply filter_ext. intros y. now rewrite andb_false_r.
Qed.

Lemma fold_delete_self (ok : nat -> bool) (s : JSSet.t) :
  fold_left (fun s id => if ok id then JSSet.delete id s else s) s s
  = filter (fun y => negb (ok y)) s.
Proof.
  rewrite fold_delete. apply filter_ext_in. intros y Hy. f_equal.
  destruct (ok y) eqn:E.
  - apply existsb_exists. exists y. now rewrite Nat.eqb_refl.
  - destruct (existsb (fun id => (y =? id) && ok id) s) eqn:X; [ | reflexivity ].
    apply existsb_exists in X. destruct X as (z & _ & Hz).
    apply andb_prop in Hz. destruct Hz as (Hz1 & Hz2).
    apply Nat.eqb_eq in Hz1. subst z. congruence.
Qed.

Lemma fold_left_ext_in {A B} (f g : A -> B -> A) (l : list B) :
  (forall a b, In b l -> f a b = g a b) ->
  forall a, fold_left f l a = fold_left g l a.
Proof.
  induction l as [ | b l IH]; intros H a; [ reflexivity | ].
  cbn. rewrite H by now left. apply IH. intros a' b' Hb. apply H. now right.
Qed.

Lemma frames_phase_exact (ids : list nat) :
  forall w : World,
    forEach ids (fun id => cleanupAnimationFrame (Some id)) w
    = (Normal tt,
       {| registry :=
            withFrames
              (fold_left (fun s id =>
                 if succeeds (OfAnimationFrame id) (host w)
                 then JSSet.delete id s else s) ids)
              (registry w);
          host := withCalls (map CancelAnimationFrame ids)
                    (state (host w)) (host w) |}).
Proof.
  induction ids as [ | id ids IH]; intros w.
  - cbn. unfold ret. now rewrite withFrames_id, withCalls_nil, world_eta.
  - cbn [forEach map fold_left].
    rewrite (bind_normal _ _ _ _ _ (cleanupAnimationFrame_does id w)).
    rewrite IH. cbn [host registry].
    rewrite state_withCalls, withCalls_twice.
    f_equal. f_equal.
    destruct (succeeds (OfAnimationFrame id) (host w));
      destruct (registry w); reflexivity.
Qed.

Lemma streams_phase_exact (streams : list MediaStream) :
  forall w : World,
    forEach streams (fun stream => cleanupMediaStream (Some stream)) w
    = (Normal tt,
       {| registry :=
            withStreams
              (fold_left (fun s stream =>
                 if succeeds (OfMediaStream stream) (host w)
                 then JSSet.delete stream s else s) streams)
              (registry w);
          host := withCalls
                    (flat_map (fun stream =>
                       stopCalls (throws (host w))
                         (getTracks (host w) stream)) streams)
                    (state (host w)) (host w) |}).
Proof.
  induction streams as [ | stream streams IH]; intros w.
  - cbn. unfold ret. now rewrite withStreams_id, withCalls_nil, world_eta.
  - cbn [forEach flat_map fold_left].
    rewrite (bind_normal _ _ _ _ _ (cleanupMediaStream_does stream w)).
    rewrite IH. cbn [host registry].
    rewrite state_withCalls, throws_withCalls, getTracks_withCalls,
      withCalls_twice.
    f_equal. f_equal.
    destruct (succeeds (OfMediaStream stream) (host w));
      destruct (registry w); reflexivity.
Qed.

Lemma contexts_phase_exact (contexts : list AudioContext) :
  forall w : World,
    NoDup contexts ->
    exists h',
      forEach contexts (fun context => cleanupAudioContext (Some context)) w
      = (Normal tt,
         {| registry :=
              withContexts
                (fold_left (fun s context =>
                   if succeeds (OfAudioContext context) (host w)
                   then JSSet.delete context s else s) contexts)
                (registry w);
            host := h' |})
      /\ throws h' = throws (host w)
      /\ forall x, ~ In x contexts -> state h' x = state (host w) x.
Proof.
  induction contexts as [ | c contexts IH]; intros w Hnd.
  - exists (host w). cbn. unfold ret.
    now rewrite withContexts_id, world_eta.
  - inversion Hnd as [ | ? ? Hc Hrest]; subst.
    cbn [forEach fold_left].
    rewrite (bind_normal _ _ _ _ _ (cleanupAudioContext_does c w)).
    set (w1 := if isClosed (state (host w) c) then w else _).
    assert (T1 : throws (host w1) = throws (host w)).
    { unfold w1. now destruct (isClosed (state (host w) c)). }
    assert (S1 : forall y, y <> c -> state (host w1) y = state (host w) y).
    { intros y Hy. unfold w1.
      destruct (isClosed (state (host w) c)); [ reflexivity | ].
      cbn [host]. rewrite state_withCalls.
      destruct (throws (host w) (ContextClose c)); [ reflexivity | ].
      cbn [effect]. destruct (Nat.eqb_spec y c); [ contradiction | reflexivity ]. }
    assert (R1 : registry w1
                 = if succeeds (OfAudioContext c) (host w)
                   then removed (OfAudioContext c) (registry w)
                   else registry w).
    { unfold w1. unfold succeeds.
      destruct (isClosed (state (host w) c)); reflexivity. }
    destruct (IH w1 Hrest) as (h' & Hrun & Ht & Hs).
    exists h'. rewrite Hrun. split; [ | split ].
    + f_equal. f_equal. rewrite R1. unfold withContexts.
      rewrite (fold_left_ext_in
                 (fun s context =>
                    if succeeds (OfAudioContext context) (host w1)
                    then JSSet.delete context s else s)
                 (fun s context =>
                    if succeeds (OfAudioContext context) (host w)
                    then JSSet.delete context s else s)).
      * destruct (succeeds (OfAudioContext c) (host w));
          destruct (registry w); reflexivity.
      * intros s y Hy. unfold succeeds. rewrite T1, S1; [ reflexivity | ].
        intros ->. contradiction.
    + now rewrite Ht.
    + intros x Hx. rewrite Hs by (intros Hin; apply Hx; now right).
      apply S1. intros ->. apply Hx. now left.
Qed.

Lemma cleanupAll_registry (w : World) :
  NoDup (activeAudioContexts (registry w)) ->
  let deleting := fun (kind : nat -> Resource) (s : JSSet.t) =>
    fold_left (fun s x => if succeeds (kind x) (host w)
                          then JSSet.delete x s else s) s s in
  registry (snd (cleanupAll w))
  = {| activeAudioContexts :=
         deleting OfAudioContext (activeAudioContexts (registry w));
       activeMediaStreams :=
         deleting OfMediaStream (activeMediaStreams (registry w));
       activeAnimationFrames :=
         deleting OfAnimationFrame (activeAnimationFrames (registry w));
       activeAudioNodes := [] |}.
Proof.
  intros Hnd. unfold cleanupAll.
  rewrite (bind_normal logInfo _ w w tt eq_refl).
  rewrite (bind_normal (get _) _ w w _ eq_refl).
  rewrite (bind_normal _ _ _ _ _ (frames_phase_exact _ w)).
  rewrite (bind_normal _ _ _ _ _ (cleanupAudioNodes_does _)).
  match goal with
  | |- context [bind (get ?g) _ ?w1] =>
      rewrite (bind_normal (get g) _ w1 w1 _ eq_refl)
  end.
  rewrite (bind_normal _ _ _ _ _ (streams_phase_exact _ _)).
  rewrite (bind_normal _ _ _ _ _ (cleanupSpeechSynthesis_does _)).
  match goal with
  | |- context [bind (get ?g) _ ?w1] =>
      rewrite (bind_normal (get g) _ w1 w1 _ eq_refl)
  end.
  match goal with
  | |- context [bind (forEach ?cs _) _ ?w1] =>
      destruct (contexts_phase_exact cs w1) as (h' & H3 & _)
  end.
  { destruct (registry w). exact Hnd. }
  rewrite (bind_normal _ _ _ _ _ H3).
  unfold logInfo, ret. cbn [snd registry].
  destruct w as [r h]. destruct r as [cs ss fs ns].
  reflexivity.
Qed.

(** X14: what stays tracked after [cleanupAll]: no audio node at all, and
    of the frames, streams and contexts exactly those whose release did not
    go through: a [cancelAnimationFrame], a track [stop()] or a [close()]
    that threw, or a context that was closed already, which is left in its
    set for good. *)
Theorem cleanupAll_leaves_the_failed (w : World) :
  wellFormed (registry w) ->
  registry (snd (cleanupAll w)) = leftover w.
Proof.
  intros (Hnd & _). rewrite (cleanupAll_registry w Hnd).
  unfold leftover, kept. f_equal.
  - exact (fold_delete_self
             (fun x => succeeds (OfAudioContext x) (host w))
             (activeAudioContexts (registry w))).
  - exact (fold_delete_self
             (fun x => succeeds (OfMediaStream x) (host w))
             (activeMediaStreams (registry w))).
  - exact (fold_delete_self
             (fun x => succeeds (OfAnimationFrame x) (host w))
             (activeAnimationFrames (registry w))).
Qed.

Lemma cleanupAll_leaves_the_failed_witness :
  registry (snd (cleanupAll faulty)) = leftover faulty.
Proof.
  apply (cleanupAll_leaves_the_failed faulty).
  vm_compute. repeat split; repeat (constructor; [ cbn; lia | ]); constructor.
Defined.

(** *** The leak check *)

Lemma size_positive (s : JSSet.t) : (0 <? JSSet.size s)%Z = negb (length s =? 0).
Proof. unfold JSSet.size. destruct s; cbn; [ reflexivity | lia ]. Qed.

Lemma kept_empty (kind : nat -> Resource) (h : Host) (s : JSSet.t) :
  (length (kept kind h s) =? 0) = forallb (fun x => succeeds (kind x) h) s.
Proof.
  unfold kept. induction s as [ | x s IH]; [ reflexivity | ].
  cbn [filter forallb]. destruct (succeeds (kind x) h); cbn [negb andb].
  - exact IH.
  - reflexivity.
Qed.

(** X15: [checkForLeaks] answers false exactly when all four sets are empty.
    After [reset] it answers false.  After [cleanupAll] it answers false
    exactly when every release went through: one throwing call, or one
    tracked context that was closed already, and a leak is reported after
    every later cleanup too. *)
Theorem leak_check_after_cleanup (w : World) :
  wellFormed (registry w) ->
  checkForLeaks (registry (snd (cleanupAll w))) = negb (allSucceed w)
  /\ checkForLeaks (registry (snd (reset w))) = false
  /\ (checkForLeaks (registry w) = false
      <-> activeAudioContexts (registry w) = []
          /\ activeMediaStreams (registry w) = []
          /\ activeAnimationFrames (registry w) = []
          /\ activeAudioNodes (registry w) = []).
Proof.
  intros Hwf. split; [ | split ].
  - rewrite (cleanupAll_registry w (proj1 Hwf)).
    rewrite (fold_delete_self
               (fun x => succeeds (OfAudioContext x) (host w))),
      (fold_delete_self (fun x => succeeds (OfMediaStream x) (host w))),
      (fold_delete_self (fun x => succeeds (OfAnimationFrame x) (host w))).
    fold (kept OfAudioContext (host w) (activeAudioContexts (registry w))).
    fold (kept OfMediaStream (host w) (activeMediaStreams (registry w))).
    fold (kept OfAnimationFrame (host w) (activeAnimationFrames (registry w))).
    unfold checkForLeaks, getResourceStats, allSucceed.
    cbn [audioContexts mediaStreams animationFrames audioNodes
         activeAudioContexts activeMediaStreams activeAnimationFrames
         activeAudioNodes].
    rewrite !size_positive, !kept_empty. cbn [length Nat.eqb negb].
    rewrite orb_false_r, !negb_andb. reflexivity.
  - reflexivity.
  - unfold checkForLeaks, getResourceStats.
    cbn [audioContexts mediaStreams animationFrames audioNodes].
    rewrite !size_positive.
    destruct (activeAudioContexts (registry w));
      destruct (activeMediaStreams (registry w));
      destruct (activeAnimationFrames (registry w));
      destruct (activeAudioNodes (registry w)); cbn;
      split; try reflexivity; try discriminate; auto;
      intros (A & B & C & D); discriminate.
Qed.

Lemma leak_check_after_cleanup_witness :
  checkForLeaks (registry (snd (cleanupAll faulty))) = negb (allSucceed faulty)
  /\ checkForLeaks (registry (snd (reset faulty))) = false
  /\ (checkForLeaks (registry faulty) = false
      <-> activeAudioContexts (registry faulty) = []
          /\ activeMediaStreams (registry faulty) = []
          /\ activeAnimationFrames (registry faulty) = []
          /\ activeAudioNodes (registry faulty) = []).
Proof.
  apply (leak_check_after_cleanup faulty).
  vm_compute. repeat split; repeat (constructor; [ cbn; lia | ]); constructor.
Defined.

End RegistryMoreFacts.

(** ** The debugger *)

Module DebuggerFacts.

Import JS Capture Debugger VADMore.
Import String.
Open Scope list_scope.

(** *** Levels *)

Lemma indexOf_absent (x : string) (arr : list string) :
  ~ In x arr -> indexOf x arr = (-1)%Z.
Proof.
  induction arr as [ | y arr IH]; intros H; [ reflexivity | ].
  cbn [indexOf]. destruct (String.eqb_spec y x) as [-> | _].
  - exfalso. apply H. now left.
  - rewrite IH by (intros Hin; apply H; now right). reflexivity.
Qed.

(** X16: errors are logged at every configured level; so is a message whose
    level is none of the four names, because [indexOf] answers -1 for it;
    and a message of one of the four levels is logged exactly when its level
    is at most as verbose as the configured one. *)
Theorem shouldLog_by_severity (c : DebugConfig) (m : LogLevel) (level : string) :
  shouldLog c "error" = true
  /\ shouldLog c (levelName m) = (severity m <=? severity (logLevel c))%Z
  /\ (~ In level ["error"; "warn"; "info"; "debug"] ->
      shouldLog c level = true).
Proof.
  split; [ | split ].
  - unfold shouldLog. destruct (logLevel c); reflexivity.
  - unfold shouldLog. destruct (logLevel c); destruct m; reflexivity.
  - intros H. unfold shouldLog. rewrite (indexOf_absent level _ H).
    destruct (logLevel c); reflexivity.
Qed.

(** *** The error log *)

Lemma logError_log (env : Env) (type message : string)
  (ctx : option (list (string * string))) (d : t) :
  (List.length (errorLog d) <= Z.to_nat (maxLogEntries (config d)))%nat ->
  errorLog (logError env type message ctx d)
  = lastn (Z.to_nat (maxLogEntries (config d)))
          (errorLog d ++ [reportOf (config d) (env, type, message, ctx)])
  /\ config (logError env type message ctx d) = config d
  /\ List.length (console (logError env type message ctx d))
     = S (List.length (console d)).
Proof.
  intros Hlen. unfold logError.
  cbn [errorLog config console reportOf].
  split; [ | split ].
  - rewrite <- (window_step _ _ _ Hlen). unfold push.
    rewrite length_app. cbn [List.length].
    destruct (Z.ltb_spec (maxLogEntries (config d))
                (Z.of_nat (List.length (errorLog d) + 1)));
      destruct (Nat.ltb_spec (Z.to_nat (maxLogEntries (config d)))
                  (List.length (errorLog d) + 1));
      try reflexivity; lia.
  - reflexivity.
  - replace (shouldLog (config d) "error") with true
      by (unfold shouldLog; now destruct (logLevel (config d))).
    unfold push. rewrite length_app. cbn. lia.
Qed.

(** X17: the error log is a window of the most recent reports: after any
    sequence of [logError] calls on a new debugger it holds the reports of
    the last [maxLogEntries] calls, oldest first (none at all when
    [maxLogEntries] is 0 or negative), and every call has written one line
    to the console, whatever the configured level. *)
Theorem errorLog_keeps_the_latest (c : DebugConfig) (calls : list LogCall) :
  let d := logAll calls (create c) in
  let kept := Z.to_nat (maxLogEntries c) in
  errorLog d = lastn kept (map (reportOf c) calls)
  /\ (List.length (errorLog d) <= kept)%nat
  /\ List.length (console d) = List.length calls.
Proof.
  cbv zeta.
  assert (G : forall calls d pre,
    config d = c ->
    errorLog d = lastn (Z.to_nat (maxLogEntries c)) pre ->
    errorLog (logAll calls d)
    = lastn (Z.to_nat (maxLogEntries c)) (pre ++ map (reportOf c) calls)
    /\ List.length (console (logAll calls d))
       = (List.length (console d) + List.length calls)%nat).
  { induction calls0 as [ | call calls0 IH]; intros d pre Hc Hlog.
    - cbn. rewrite app_nil_r. split; [ exact Hlog | lia ].
    - destruct call as [[[env type] message] ctx].
      unfold logAll. cbn [fold_left map].
      fold (logAll calls0 (logError env type message ctx d)).
      destruct (logError_log env type message ctx d) as (L1 & L2 & L3).
      { rewrite Hlog, Hc. apply lastn_length. }
      destruct (IH (logError env type message ctx d)
                   (pre ++ [reportOf c (env, type, message, ctx)]))
        as (I1 & I2).
      + now rewrite L2.
      + rewrite L1, Hc, Hlog. apply lastn_app_lastn.
      + rewrite I1, I2, L3, <- app_assoc. cbn [app List.length].
        split; [ reflexivity | lia ]. }
  destruct (G calls (create c) []) as (G1 & G2); try reflexivity.
  cbn [app] in G1. split; [ exact G1 | ]. split.
  - rewrite G1. apply lastn_length.
  - rewrite G2. reflexivity.
Qed.

(** *** Metrics *)

Lemma mapGet_mapSet_same {V} (key : string) (v : V) (m : list (string * V)) :
  mapGet key (mapSet key v m) = Some v.
Proof.
  induction m as [ | [k old] m IH]; cbn.
  - now rewrite String.eqb_refl.
  - destruct (String.eqb k key) eqn:E; cbn; rewrite E; [ reflexivity | exact IH ].
Qed.

Lemma mapGet_mapSet_other {V} (key other : string) (v : V)
  (m : list (string * V)) :
  key <> other -> mapGet other (mapSet key v m) = mapGet other m.
Proof.
  intros Hne. induction m as [ | [k old] m IH]; cbn.
  - destruct (String.eqb_spec key other); [ contradiction | reflexivity ].
  - destruct (String.eqb_spec k key) as [-> | Hk]; cbn.
    + destruct (String.eqb_spec key other); [ contradiction | reflexivity ].
    + destruct (String.eqb k other); [ reflexivity | exact IH ].
Qed.

Lemma recorded_snoc (name n : string) (v : float) (calls : list (string * float)) :
  recorded name (calls ++ [(n, v)])
  = recorded name calls ++ (if String.eqb n name then [v] else []).
Proof.
  unfold recorded. rewrite filter_app, map_app. cbn [filter fst].
  destruct (String.eqb n name); reflexivity.
Qed.

Lemma recordMetric_get (n : string) (v : float) (d : t)
  (calls : list (string * float)) :
  (forall name, mapGet name (performanceMetrics d) = stored (recorded name calls)) ->
  forall name,
    mapGet name (performanceMetrics (recordMetric n v d))
    = stored (recorded name (calls ++ [(n, v)])).
Proof.
  intros Inv name. rewrite recorded_snoc.
  unfold recordMetric. cbn [performanceMetrics]. unfold mapHas.
  pose proof (Inv n) as Hn.
  destruct (String.eqb_spec n name) as [-> | Hne].
  - rewrite Inv. destruct (recorded name calls) as [ | x l] eqn:R; cbn [stored negb].
    + rewrite mapGet_mapSet_same. rewrite mapGet_mapSet_same. reflexivity.
    + rewrite Inv, R. cbn [stored]. rewrite mapGet_mapSet_same.
      unfold push. reflexivity.
  - rewrite app_nil_r.
    destruct (mapGet n (performanceMetrics d)) eqn:G; cbn [negb].
    + rewrite G. rewrite mapGet_mapSet_other by assumption. apply Inv.
    + rewrite mapGet_mapSet_same.
      rewrite !mapGet_mapSet_other by assumption. apply Inv.
Qed.

(** X18: recording and reading back: after any sequence of [recordMetric]
    calls on a new debugger, [getMetricStats(name)] returns null when no
    value was recorded under [name]; otherwise it throws [RangeError] when
    the engine refuses to spread that many values into one call, and if not
    it describes exactly the values recorded under [name], in call order:
    their number, their sum divided by their number, their minimum and
    their maximum.  Values recorded under other names play no part. *)
Theorem metrics_read_back (c : DebugConfig) (calls : list (string * float))
  (tooMany : nat -> bool) (name : string) :
  getMetricStats tooMany name (recordAll calls (create c))
  = match recorded name calls with
    | [] => Returned None
    | values =>
        if tooMany (List.length values) then RangeError
        else Returned (statsOf values)
    end.
Proof.
  assert (G : forall calls d pre,
    (forall name, mapGet name (performanceMetrics d)
                  = stored (recorded name pre)) ->
    forall name, mapGet name (performanceMetrics (recordAll calls d))
                 = stored (recorded name (pre ++ calls))).
  { induction calls0 as [ | [n v] calls0 IH]; intros d pre Inv nm.
    - cbn. rewrite app_nil_r. apply Inv.
    - unfold recordAll. cbn [fold_left fst snd].
      fold (recordAll calls0 (recordMetric n v d)).
      change (pre ++ (n, v) :: calls0) with (pre ++ [(n, v)] ++ calls0).
      rewrite app_assoc. apply IH. now apply recordMetric_get. }
  unfold getMetricStats. rewrite (G calls (create c) []) by reflexivity.
  cbn [app]. destruct (recorded name calls) as [ | v values]; [ reflexivity | ].
  cbn [stored List.length Nat.eqb]. unfold spread. cbn [List.length].
  destruct (tooMany (S (List.length values))); reflexivity.
Qed.

End DebuggerFacts.
